(** * Sequential Trajectory Mapper: the capture state machine and the scene

    A shallow embedding of [src/main.py] (class [TrajectoryMapApp] and
    [MapClickHandler]).  The Qt widgets and the folium map are external
    collaborators; what the methods do to them is kept as data:

    - the texts of the labels and input fields are fields of the state;
    - a modal dialog ([QMessageBox]) and a publication of the map
      ([save_and_display_map]) are entries of an effect log, oldest first;
    - the answer the operator gives to a [QMessageBox.question] is an
      argument of the method that asks;
    - a folium map is the record of its constructor arguments and the
      children added to it, in the order of the [add_to] calls.

    Coordinates are Python floats, that is IEEE 754 binary64 numbers, and are
    modelled by Rocq's primitive floats, so that the range test of the manual
    entry behaves on NaN and on infinities as it does in Python.  The folium
    constructors are taken as total: they record their arguments.

    The methods are modelled twice.  The first model holds the trajectories
    as values (lists of pairs) and carries the whole user interface; the
    properties of the store and of the scene are stated on it.  The second
    one, [PyHeap], holds them as Python does, as list objects in a heap, and
    is there for the question of aliasing; [heap_calls_agree] shows that the
    two agree after every sequence of calls.  [search_place] is left out: it
    changes no trajectory and its map is replaced by the next refresh. *)

From Stdlib Require Import Floats.PrimFloat.
From Stdlib Require Import ZArith String List Lia.
From Stdlib Require Import DecimalString.
From stdpp Require Import base list.
Import ListNotations.

Set Warnings "-inexact-float".
Local Open Scope string_scope.
Local Open Scope list_scope.

(** ** Texts *)

(** The value of an f-string, kept as its pieces: the literal parts, the
    integers printed in decimal and the floats printed with the format
    [.6f].  Two texts with the same pieces print to the same string. *)
Inductive Frag : Type :=
| Lit (s : string)
| IntD (n : nat)
| Fixed6 (x : float).

Definition Text : Type := list Frag.

(** ** Points, trajectories and the folium scene *)

(** A point is the two-element list [[lat, lng]]. *)
Definition Point : Type := (float * float)%type.
Definition Trajectory : Type := list Point.

Record Icon : Type := mkIcon { icon_color : string; icon_name : string }.

Inductive Element : Type :=
| Marker (location : Point) (popup tooltip : Text) (icon : Icon)
| CircleMarker (location : Point) (radius : Z) (popup tooltip : Text)
    (color : string) (fill : bool) (fillColor : string) (fillOpacity : float)
    (weight : option Z)
| PolyLine (locations : list Point) (color : string) (weight : Z)
    (opacity : float) (dashArray : option string) (popup : Text).

Record Map : Type := mkMap {
  map_location : Point;
  zoom_start : Z;
  tiles : string;
  attr : option string;
  children : list Element;   (* in the order of the add_to calls *)
  html : list string         (* get_root().html children *)
}.

Definition add_to (e : Element) (m : Map) : Map :=
  mkMap (map_location m) (zoom_start m) (tiles m) (attr m)
        (children m ++ [e]) (html m).

Definition add_html (x : string) (m : Map) : Map :=
  mkMap (map_location m) (zoom_start m) (tiles m) (attr m)
        (children m) (html m ++ [x]).

(** ** Effects and application state *)

Inductive StandardButton : Type := Yes | No.

Definition StandardButton_eqb (a b : StandardButton) : bool :=
  match a, b with
  | Yes, Yes | No, No => true
  | _, _ => false
  end.

Inductive Effect : Type :=
| MsgWarning (title : string) (text : Text)
| MsgInformation (title : string) (text : Text)
| MsgQuestion (title : string) (text : Text)
| SetFocusLat
| DisplayMap (m : Map).

Record App : Type := mkApp {
  completed_trajectories : list Trajectory;
  current_trajectory : Trajectory;
  is_drawing_mode : bool;
  click_mode_enabled : bool;
  lat_input : string;
  lon_input : string;
  map_style_combo : string;
  click_status_label : Text;
  click_status_style : string;
  info_label : Text;
  trajectory_count_label : Text;
  current_map : Map;
  effects : list Effect
}.

Definition set_completed_trajectories (v : list Trajectory) (s : App) : App :=
  mkApp v (current_trajectory s) (is_drawing_mode s) (click_mode_enabled s)
    (lat_input s) (lon_input s) (map_style_combo s) (click_status_label s)
    (click_status_style s) (info_label s) (trajectory_count_label s)
    (current_map s) (effects s).

Definition set_current_trajectory (v : Trajectory) (s : App) : App :=
  mkApp (completed_trajectories s) v (is_drawing_mode s) (click_mode_enabled s)
    (lat_input s) (lon_input s) (map_style_combo s) (click_status_label s)
    (click_status_style s) (info_label s) (trajectory_count_label s)
    (current_map s) (effects s).

Definition set_click_mode_enabled (v : bool) (s : App) : App :=
  mkApp (completed_trajectories s) (current_trajectory s) (is_drawing_mode s) v
    (lat_input s) (lon_input s) (map_style_combo s) (click_status_label s)
    (click_status_style s) (info_label s) (trajectory_count_label s)
    (current_map s) (effects s).

Definition set_inputs (lat lon : string) (s : App) : App :=
  mkApp (completed_trajectories s) (current_trajectory s) (is_drawing_mode s)
    (click_mode_enabled s) lat lon (map_style_combo s) (click_status_label s)
    (click_status_style s) (info_label s) (trajectory_count_label s)
    (current_map s) (effects s).

Definition set_map_style_combo (v : string) (s : App) : App :=
  mkApp (completed_trajectories s) (current_trajectory s) (is_drawing_mode s)
    (click_mode_enabled s) (lat_input s) (lon_input s) v (click_status_label s)
    (click_status_style s) (info_label s) (trajectory_count_label s)
    (current_map s) (effects s).

Definition set_click_status (text : Text) (style : string) (s : App) : App :=
  mkApp (completed_trajectories s) (current_trajectory s) (is_drawing_mode s)
    (click_mode_enabled s) (lat_input s) (lon_input s) (map_style_combo s)
    text style (info_label s) (trajectory_count_label s)
    (current_map s) (effects s).

Definition set_info_label (v : Text) (s : App) : App :=
  mkApp (completed_trajectories s) (current_trajectory s) (is_drawing_mode s)
    (click_mode_enabled s) (lat_input s) (lon_input s) (map_style_combo s)
    (click_status_label s) (click_status_style s) v (trajectory_count_label s)
    (current_map s) (effects s).

Definition set_trajectory_count_label (v : Text) (s : App) : App :=
  mkApp (completed_trajectories s) (current_trajectory s) (is_drawing_mode s)
    (click_mode_enabled s) (lat_input s) (lon_input s) (map_style_combo s)
    (click_status_label s) (click_status_style s) (info_label s) v
    (current_map s) (effects s).

Definition set_current_map (v : Map) (s : App) : App :=
  mkApp (completed_trajectories s) (current_trajectory s) (is_drawing_mode s)
    (click_mode_enabled s) (lat_input s) (lon_input s) (map_style_combo s)
    (click_status_label s) (click_status_style s) (info_label s)
    (trajectory_count_label s) v (effects s).

(** Performing an effect appends it to the log. *)
Definition perform (e : Effect) (s : App) : App :=
  mkApp (completed_trajectories s) (current_trajectory s) (is_drawing_mode s)
    (click_mode_enabled s) (lat_input s) (lon_input s) (map_style_combo s)
    (click_status_label s) (click_status_style s) (info_label s)
    (trajectory_count_label s) (current_map s) (effects s ++ [e]).

(** ** Python helpers *)

(** [enumerate(l)]: the elements of [l] paired with their 0-based position. *)
Fixpoint enumerate_from {A : Type} (i : nat) (l : list A) : list (nat * A) :=
  match l with
  | [] => []
  | x :: l' => (i, x) :: enumerate_from (S i) l'
  end.

Definition enumerate {A : Type} (l : list A) : list (nat * A) :=
  enumerate_from 0 l.

(** The chained comparison [lo <= x <= hi] on floats. *)
Definition between (lo x hi : float) : bool :=
  PrimFloat.leb lo x && PrimFloat.leb x hi.

(** The truth value of [tile_config['attr']]: [None] and the empty string
    are false. *)
Definition truthy (a : option string) : bool :=
  match a with
  | None => false
  | Some x => negb (String.eqb x "")
  end.

(** ** The scene (section 4.4): [add_single_trajectory_to_map] and callers *)

Definition trajectory_colors : list string :=
  [ "red"; "blue"; "green"; "purple"; "orange";
    "darkred"; "pink"; "gray"; "darkblue"; "darkgreen";
    "cadetblue"; "darkpurple"; "lightred"; "beige"; "lightblue" ].

(** The color of the in-progress trajectory. *)
Definition highlight_color : string := "#FF6600".

(** The body of the loop [for i, point in enumerate(trajectory)]: the marker
    of the point at position [i] of a trajectory of [n] points. *)
Definition point_marker (completed : bool) (color : string) (index n : nat)
    (i : nat) (point : Point) : Element :=
  if completed then
    if Nat.eqb i 0 then
      Marker point
        [Lit "🚀 Trajectory "; IntD (index + 1); Lit " - START<br>Lat: ";
         Fixed6 (fst point); Lit "<br>Lng: "; Fixed6 (snd point)]
        [Lit "Start of Trajectory "; IntD (index + 1)]
        (mkIcon "green" "play")
    else if Nat.eqb i (n - 1) then
      Marker point
        [Lit "🏁 Trajectory "; IntD (index + 1); Lit " - END<br>Lat: ";
         Fixed6 (fst point); Lit "<br>Lng: "; Fixed6 (snd point)]
        [Lit "End of Trajectory "; IntD (index + 1)]
        (mkIcon "red" "stop")
    else
      CircleMarker point 5
        [Lit "Point "; IntD (i + 1); Lit "<br>Lat: "; Fixed6 (fst point);
         Lit "<br>Lng: "; Fixed6 (snd point)]
        [Lit "Point "; IntD (i + 1)]
        color true color 0.7%float None
  else
    CircleMarker point 8
      [Lit "Current Point "; IntD (i + 1); Lit "<br>Lat: "; Fixed6 (fst point);
       Lit "<br>Lng: "; Fixed6 (snd point)]
      [Lit "Current Point "; IntD (i + 1)]
      highlight_color true highlight_color 1.0%float (Some 3%Z).

(** The line added after the markers when the trajectory has two points or
    more. *)
Definition trajectory_line (completed : bool) (color : string) (index : nat)
    (trajectory : Trajectory) : Element :=
  if completed then
    PolyLine trajectory color 4 0.8%float None
      [Lit "Trajectory "; IntD (index + 1); Lit " (";
       IntD (length trajectory); Lit " points)"]
  else
    PolyLine trajectory highlight_color 5 1.0%float (Some "10, 5")
      [Lit "Current Trajectory ("; IntD (length trajectory); Lit " points)"].

Definition add_single_trajectory_to_map (trajectory : Trajectory)
    (index : nat) (completed : bool) (m : Map) : Map :=
  if Nat.eqb (length trajectory) 0 then m
  else
    let color :=
      nth (index mod length trajectory_colors) trajectory_colors "" in
    let m1 :=
      fold_left
        (fun acc ip =>
           add_to (point_marker completed color index (length trajectory)
                     (fst ip) (snd ip)) acc)
        (enumerate trajectory) m in
    if Nat.ltb 1 (length trajectory)
    then add_to (trajectory_line completed color index trajectory) m1
    else m1.

Definition add_all_trajectories_to_map (s : App) : App :=
  let m1 :=
    fold_left
      (fun acc it => add_single_trajectory_to_map (snd it) (fst it) true acc)
      (enumerate (completed_trajectories s)) (current_map s) in
  match current_trajectory s with
  | [] => set_current_map m1 s
  | _ :: _ =>
      set_current_map
        (add_single_trajectory_to_map (current_trajectory s)
           (length (completed_trajectories s)) false m1) s
  end.

(** [get_map_tiles]: the dictionary with the keys ['tiles'] and ['attr']. *)
Definition get_map_tiles (s : App) : string * option string :=
  let style := map_style_combo s in
  if String.eqb style "Satellite View" then
    ("https://server.arcgisonline.com/ArcGIS/rest/services/World_Imagery/MapServer/tile/{z}/{y}/{x}",
     Some "Tiles © Esri")
  else if String.eqb style "Terrain" then
    ("https://server.arcgisonline.com/ArcGIS/rest/services/World_Terrain_Base/MapServer/tile/{z}/{y}/{x}",
     Some "Tiles © Esri")
  else ("OpenStreetMap", None).

Definition create_map_at_location (center : Point) (zoom : Z) (s : App) : App :=
  let tile_config := get_map_tiles s in
  if truthy (snd tile_config) then
    set_current_map (mkMap center zoom (fst tile_config) (snd tile_config) [] []) s
  else
    set_current_map (mkMap center zoom (fst tile_config) None [] []) s.

Definition click_script : string :=
"
        <script>
        function setupMapClicks() {
            // Wait for map to be fully loaded
            if (typeof window.map === 'undefined') {
                setTimeout(setupMapClicks, 100);
                return;
            }
            
            // Remove any existing click handlers
            window.map.off('click');
            
            // Add click handler
            window.map.on('click', function(e) {
                // Send click to Python immediately
                if (typeof qt !== 'undefined' && qt.webChannelTransport) {
                    new QWebChannel(qt.webChannelTransport, function(channel) {
                        var handler = channel.objects.mapHandler;
                        if (handler && handler.on_map_click) {
                            handler.on_map_click(e.latlng.lat, e.latlng.lng);
                        }
                    });
                }
            });
            
            // Set cursor style
            window.map.getContainer().style.cursor = 'crosshair';
        }
        
        // Initialize when DOM is ready
        if (document.readyState === 'loading') {
            document.addEventListener('DOMContentLoaded', setupMapClicks);
        } else {
            setupMapClicks();
        }
        </script>
        ".

Definition add_map_click_handler (s : App) : App :=
  set_current_map (add_html click_script (current_map s)) s.

Definition save_and_display_map (s : App) : App :=
  perform (DisplayMap (current_map s)) s.

(** The default center, New York City. *)
Definition nyc : Point := (40.7128%float, (-74.0060)%float).

(** The centering rule at the head of [refresh_map]. *)
Definition refresh_center (s : App) : Point * Z :=
  match last (current_trajectory s) with
  | Some p => (p, 15%Z)
  | None =>
      match last (completed_trajectories s) with
      | Some last_trajectory =>
          match last last_trajectory with
          | Some p => (p, 15%Z)
          | None => (nyc, 12%Z)
          end
      | None => (nyc, 12%Z)
      end
  end.

Definition refresh_map (s : App) : App :=
  let cz := refresh_center s in
  let s1 := create_map_at_location (fst cz) (snd cz) s in
  let s2 := add_all_trajectories_to_map s1 in
  let s3 := add_map_click_handler s2 in
  save_and_display_map s3.

Definition update_status_labels (s : App) : App :=
  let current_points := length (current_trajectory s) in
  let total_trajectories := length (completed_trajectories s) in
  set_trajectory_count_label
    [Lit "Trajectories: "; IntD total_trajectories;
     Lit " | Current Points: "; IntD current_points] s.

(** ** The trajectory store (section 4.2) and the click bridge (4.3) *)

Definition add_trajectory_point (lat lng : float) (s : App) : App :=
  if negb (is_drawing_mode s) || negb (click_mode_enabled s) then s
  else
    let s1 := set_current_trajectory (current_trajectory s ++ [(lat, lng)]) s in
    let s2 := update_status_labels s1 in
    let point_count := length (current_trajectory s2) in
    let s3 :=
      if Nat.eqb point_count 1 then
        set_info_label
          [Lit "🎯 Point #"; IntD point_count; Lit " added at ("; Fixed6 lat;
           Lit ", "; Fixed6 lng; Lit "). Click to add more points!"] s2
      else
        set_info_label
          [Lit "📍 Point #"; IntD point_count; Lit " added at ("; Fixed6 lat;
           Lit ", "; Fixed6 lng;
           Lit "). Continue clicking or finish trajectory."] s2 in
    refresh_map s3.

(** [MapClickHandler.on_map_click], the slot the script of the map calls. *)
Definition on_map_click (lat lng : float) (s : App) : App :=
  if click_mode_enabled s then add_trajectory_point lat lng s else s.

Definition finish_current_trajectory (reply : StandardButton) (s : App) : App :=
  if Nat.eqb (length (current_trajectory s)) 0 then
    perform (MsgInformation "No Trajectory"
               [Lit "No points to save. Add some points first!"]) s
  else
    let asked := Nat.eqb (length (current_trajectory s)) 1 in
    let s0 :=
      if asked then
        perform (MsgQuestion "Single Point Trajectory"
                   [Lit "Current trajectory has only one point. Do you want to save it anyway?"]) s
      else s in
    if asked && StandardButton_eqb reply No then s0
    else
      let s1 :=
        set_completed_trajectories
          (completed_trajectories s0 ++ [current_trajectory s0]) s0 in
      let points_saved := length (current_trajectory s1) in
      let s2 := set_current_trajectory [] s1 in
      let s3 := update_status_labels s2 in
      let trajectory_num := length (completed_trajectories s3) in
      let s4 :=
        set_info_label
          [Lit "✅ Trajectory #"; IntD trajectory_num; Lit " completed with ";
           IntD points_saved;
           Lit " points! Click to start a new trajectory."] s3 in
      refresh_map s4.

Definition clear_current_trajectory (s : App) : App :=
  if Nat.eqb (length (current_trajectory s)) 0 then
    perform (MsgInformation "Nothing to Clear"
               [Lit "No current trajectory to clear."]) s
  else
    let points_cleared := length (current_trajectory s) in
    let s1 := set_current_trajectory [] s in
    let s2 := update_status_labels s1 in
    let s3 :=
      set_info_label
        [Lit "🗑️ Current trajectory cleared ("; IntD points_cleared;
         Lit " points). Click on map to start new trajectory."] s2 in
    refresh_map s3.

Definition clear_all_trajectories (reply : StandardButton) (s : App) : App :=
  let total_trajectories := length (completed_trajectories s) in
  let current_points := length (current_trajectory s) in
  if Nat.eqb total_trajectories 0 && Nat.eqb current_points 0 then
    perform (MsgInformation "Nothing to Clear"
               [Lit "No trajectories to clear."]) s
  else
    let s0 :=
      perform (MsgQuestion "Clear All Trajectories"
                 [Lit "Clear "; IntD total_trajectories;
                  Lit " completed trajectories and "; IntD current_points;
                  Lit " current points?"]) s in
    if StandardButton_eqb reply Yes then
      let s1 := set_completed_trajectories [] s0 in
      let s2 := set_current_trajectory [] s1 in
      let s3 := update_status_labels s2 in
      let s4 :=
        set_info_label
          [Lit "🗑️ All trajectories cleared. Click on the map to start drawing."]
          s3 in
      refresh_map s4
    else s0.

(** [Qt.Checked], the value of a checked box in the [stateChanged] signal. *)
Definition Qt_Checked : Z := 2.

Definition toggle_click_mode (state : Z) (s : App) : App :=
  let s1 := set_click_mode_enabled (Z.eqb state Qt_Checked) s in
  if click_mode_enabled s1 then
    set_info_label
      [Lit "🖱️ Click mode enabled! Click anywhere on the map to add trajectory points."]
      (set_click_status [Lit "🟢 Click Mode: ENABLED"]
         "color: green; font-weight: bold;" s1)
  else
    set_info_label
      [Lit "🖱️ Click mode disabled. Use manual coordinate entry to add points."]
      (set_click_status [Lit "🔴 Click Mode: DISABLED"]
         "color: red; font-weight: bold;" s1).

(** ** Manual entry *)

Section ManualEntry.

(** Two built-ins of Python are taken as they are: [str.strip], and [float]
    on a string, which gives a number or raises [ValueError] with a
    message. *)
Variable strip : string -> string.
Variable float_of_str : string -> string + float.

(** The handler [except ValueError as e]. *)
Definition invalid_coordinates (msg : string) (s : App) : App :=
  perform (MsgWarning "Invalid Coordinates" [Lit "Error: "; Lit msg]) s.

Definition add_manual_point (s : App) : App :=
  let lat_text := strip (lat_input s) in
  let lng_text := strip (lon_input s) in
  if String.eqb lat_text "" || String.eqb lng_text "" then
    perform (MsgWarning "Missing Coordinates"
               [Lit "Please enter both latitude and longitude values."]) s
  else
    match float_of_str lat_text with
    | inl msg => invalid_coordinates msg s
    | inr lat =>
        match float_of_str lng_text with
        | inl msg => invalid_coordinates msg s
        | inr lng =>
            if negb (between (-90)%float lat 90%float) then
              invalid_coordinates
                "Latitude must be between -90 and 90 degrees" s
            else if negb (between (-180)%float lng 180%float) then
              invalid_coordinates
                "Longitude must be between -180 and 180 degrees" s
            else
              let s1 := add_trajectory_point lat lng s in
              let s2 := set_inputs "" "" s1 in
              perform SetFocusLat s2
        end
    end.

(** The two fields hold text that [float] reads as [lat] and [lng]. *)
Definition inputs_read (s : App) (lat lng : float) : Prop :=
  strip (lat_input s) <> "" /\
  strip (lon_input s) <> "" /\
  float_of_str (strip (lat_input s)) = inr lat /\
  float_of_str (strip (lon_input s)) = inr lng.

End ManualEntry.

(** ** Start-up: [__init__], [setup_ui] and [create_initial_map] *)

Definition initial_app : App :=
  let m :=
    add_html click_script (mkMap nyc 12 "OpenStreetMap" None [] []) in
  mkApp [] [] true true "" "" "OpenStreetMap"
    [Lit "🟢 Click Mode: ENABLED"] "color: green; font-weight: bold;"
    [Lit "🚀 Ready! Click anywhere on the map to start adding trajectory points."]
    [Lit "Trajectories: 0 | Current Points: 0"]
    m [DisplayMap m].

(** * The store with Python's lists as objects

    In Python [self.current_trajectory] and [self.completed_trajectories]
    are references to list objects, [append] changes an object in place and
    [copy] makes a new object with the same elements.  This part models the
    methods that touch the two lists at that level, to settle that an
    archived trajectory shares nothing that is ever written again.  The
    heap is the sequence of the list objects allocated so far; the address
    of an object is its position, and a new object goes to the end.  The
    methods below hold every statement of the source that writes to a list
    or rebinds one of the two attributes; the scene builder only reads.
    Reading a dangling address, which Python cannot have, gives the empty
    list. *)

Module PyHeap.

(** An element of a list object: a float, or a reference to a list. *)
Inductive pyval : Type :=
| PyFloat (x : float)
| PyRef (l : nat).

Record Store : Type := mkStore {
  heap : list (list pyval);
  completed_ref : nat;       (* self.completed_trajectories *)
  current_ref : nat;         (* self.current_trajectory *)
  drawing_mode : bool;       (* self.is_drawing_mode *)
  click_mode : bool          (* self.click_mode_enabled *)
}.

(** The list object at an address. *)
Definition deref (h : list (list pyval)) (l : nat) : list pyval :=
  default [] (h !! l).

(** [list.append]: the object at [l] gets one more element, in place. *)
Definition list_append (l : nat) (v : pyval) (h : list (list pyval))
    : list (list pyval) :=
  <[l := deref h l ++ [v]]> h.

Definition add_trajectory_point (lat lng : float) (st : Store) : Store :=
  if negb (drawing_mode st) || negb (click_mode st) then st
  else
    (* [lat, lng] is a new list object *)
    let point := length (heap st) in
    let h1 := heap st ++ [[PyFloat lat; PyFloat lng]] in
    let h2 := list_append (current_ref st) (PyRef point) h1 in
    mkStore h2 (completed_ref st) (current_ref st)
      (drawing_mode st) (click_mode st).

Definition on_map_click (lat lng : float) (st : Store) : Store :=
  if click_mode st then add_trajectory_point lat lng st else st.

Definition finish_current_trajectory (reply : StandardButton) (st : Store)
    : Store :=
  let n := length (deref (heap st) (current_ref st)) in
  if Nat.eqb n 0 then st
  else if Nat.eqb n 1 && StandardButton_eqb reply No then st
  else
    (* self.current_trajectory.copy() is a new list with the same elements *)
    let copy := length (heap st) in
    let h1 := heap st ++ [deref (heap st) (current_ref st)] in
    let h2 := list_append (completed_ref st) (PyRef copy) h1 in
    (* self.current_trajectory = [] binds the attribute to a new list *)
    let fresh := length h2 in
    let h3 := h2 ++ [[]] in
    mkStore h3 (completed_ref st) fresh (drawing_mode st) (click_mode st).

Definition clear_current_trajectory (st : Store) : Store :=
  if Nat.eqb (length (deref (heap st) (current_ref st))) 0 then st
  else
    mkStore (heap st ++ [[]]) (completed_ref st) (length (heap st))
      (drawing_mode st) (click_mode st).

Definition clear_all_trajectories (reply : StandardButton) (st : Store)
    : Store :=
  let total_trajectories := length (deref (heap st) (completed_ref st)) in
  let current_points := length (deref (heap st) (current_ref st)) in
  if Nat.eqb total_trajectories 0 && Nat.eqb current_points 0 then st
  else if StandardButton_eqb reply Yes then
    mkStore (heap st ++ [[]; []]) (length (heap st)) (S (length (heap st)))
      (drawing_mode st) (click_mode st)
  else st.

Definition toggle_click_mode (state : Z) (st : Store) : Store :=
  mkStore (heap st) (completed_ref st) (current_ref st) (drawing_mode st)
    (Z.eqb state Qt_Checked).

(** [__init__]: two empty lists. *)
Definition initial_store : Store := mkStore [[]; []] 0 1 true true.

(** Reading a trajectory back out of the heap. *)
Definition read_point (h : list (list pyval)) (p : nat) : option Point :=
  match h !! p with
  | Some [PyFloat x; PyFloat y] => Some (x, y)
  | _ => None
  end.

Definition read_point_ref (h : list (list pyval)) (v : pyval) : option Point :=
  match v with
  | PyRef p => read_point h p
  | PyFloat _ => None
  end.

Definition read_trajectory (h : list (list pyval)) (a : nat)
    : option Trajectory :=
  match h !! a with
  | Some o => mapM (read_point_ref h) o
  | None => None
  end.

Definition read_trajectory_ref (h : list (list pyval)) (v : pyval)
    : option Trajectory :=
  match v with
  | PyRef a => read_trajectory h a
  | PyFloat _ => None
  end.

Definition read_completed (st : Store) : option (list Trajectory) :=
  match heap st !! completed_ref st with
  | Some o => mapM (read_trajectory_ref (heap st)) o
  | None => None
  end.

Definition read_current (st : Store) : option Trajectory :=
  read_trajectory (heap st) (current_ref st).

End PyHeap.

(** The calls that reach the two lists, for both levels. *)
Inductive Call : Type :=
| CallAddPoint (lat lng : float)
| CallMapClick (lat lng : float)
| CallFinish (reply : StandardButton)
| CallClearCurrent
| CallClearAll (reply : StandardButton)
| CallToggle (state : Z).

Definition heap_call (c : Call) (st : PyHeap.Store) : PyHeap.Store :=
  match c with
  | CallAddPoint lat lng => PyHeap.add_trajectory_point lat lng st
  | CallMapClick lat lng => PyHeap.on_map_click lat lng st
  | CallFinish reply => PyHeap.finish_current_trajectory reply st
  | CallClearCurrent => PyHeap.clear_current_trajectory st
  | CallClearAll reply => PyHeap.clear_all_trajectories reply st
  | CallToggle state => PyHeap.toggle_click_mode state st
  end.

Definition heap_calls (cs : list Call) (st : PyHeap.Store) : PyHeap.Store :=
  fold_left (fun acc c => heap_call c acc) cs st.

Definition app_call (c : Call) (s : App) : App :=
  match c with
  | CallAddPoint lat lng => add_trajectory_point lat lng s
  | CallMapClick lat lng => on_map_click lat lng s
  | CallFinish reply => finish_current_trajectory reply s
  | CallClearCurrent => clear_current_trajectory s
  | CallClearAll reply => clear_all_trajectories reply s
  | CallToggle state => toggle_click_mode state s
  end.

Definition app_calls (cs : list Call) (s : App) : App :=
  fold_left (fun acc c => app_call c acc) cs s.

(** * Notions used in the statements *)

(** ** Sessions and scenes *)

(** [same_session s s']: the two states agree on everything but the effect
    log: trajectories, flags, input fields, labels and the current map. *)
Definition same_session (s s' : App) : Prop :=
  completed_trajectories s' = completed_trajectories s /\
  current_trajectory s' = current_trajectory s /\
  is_drawing_mode s' = is_drawing_mode s /\
  click_mode_enabled s' = click_mode_enabled s /\
  lat_input s' = lat_input s /\
  lon_input s' = lon_input s /\
  map_style_combo s' = map_style_combo s /\
  click_status_label s' = click_status_label s /\
  click_status_style s' = click_status_style s /\
  info_label s' = info_label s /\
  trajectory_count_label s' = trajectory_count_label s /\
  current_map s' = current_map s.

(** The elements a list of markers adds to a map. *)
Definition add_children (es : list Element) (m : Map) : Map :=
  mkMap (map_location m) (zoom_start m) (tiles m) (attr m)
        (children m ++ es) (html m).

(** The elements of one trajectory, in the order they are added: the markers
    of its points, then its line. *)
Definition trajectory_color (index : nat) : string :=
  nth (index mod length trajectory_colors) trajectory_colors "".

Definition trajectory_elements (trajectory : Trajectory) (index : nat)
    (completed : bool) : list Element :=
  if Nat.eqb (length trajectory) 0 then []
  else
    map (fun ip => point_marker completed (trajectory_color index) index
                     (length trajectory) (fst ip) (snd ip))
        (enumerate trajectory)
    ++ (if Nat.ltb 1 (length trajectory)
        then [trajectory_line completed (trajectory_color index) index trajectory]
        else []).

(** The elements of a whole scene: the completed trajectories in index
    order, then the current one, drawn with the next index. *)
Definition scene_elements (completed : list Trajectory) (current : Trajectory)
    : list Element :=
  concat (map (fun it => trajectory_elements (snd it) (fst it) true)
              (enumerate completed))
  ++ trajectory_elements current (length completed) false.

(** The map a refresh builds: a pure function of the trajectories and of the
    selected tile style. *)
Definition scene_of (s : App) : Map :=
  mkMap (fst (refresh_center s)) (snd (refresh_center s))
    (fst (get_map_tiles s))
    (if truthy (snd (get_map_tiles s)) then snd (get_map_tiles s) else None)
    (scene_elements (completed_trajectories s) (current_trajectory s))
    [click_script].

(** ** Reports, messages and status texts *)

(** [only_reports e s s']: going from [s] to [s'] performed the effect [e]
    and nothing else: no field changed, so no label was rewritten and no map
    was built, and the log grew by [e] alone, so nothing was published. *)
Definition only_reports (e : Effect) (s s' : App) : Prop :=
  same_session s s' /\ effects s' = effects s ++ [e].

(** The three messages of a precondition that is not met. *)
Definition no_trajectory_message : Effect :=
  MsgInformation "No Trajectory" [Lit "No points to save. Add some points first!"].

Definition no_current_message : Effect :=
  MsgInformation "Nothing to Clear" [Lit "No current trajectory to clear."].

Definition nothing_to_clear_message : Effect :=
  MsgInformation "Nothing to Clear" [Lit "No trajectories to clear."].

(** The two confirmation prompts. *)
Definition single_point_prompt : Effect :=
  MsgQuestion "Single Point Trajectory"
    [Lit "Current trajectory has only one point. Do you want to save it anyway?"].

Definition clear_all_prompt (total_trajectories current_points : nat) : Effect :=
  MsgQuestion "Clear All Trajectories"
    [Lit "Clear "; IntD total_trajectories; Lit " completed trajectories and ";
     IntD current_points; Lit " current points?"].

(** The status text after a point was added. *)
Definition point_added_text (point_count : nat) (lat lng : float) : Text :=
  if Nat.eqb point_count 1 then
    [Lit "🎯 Point #"; IntD point_count; Lit " added at ("; Fixed6 lat;
     Lit ", "; Fixed6 lng; Lit "). Click to add more points!"]
  else
    [Lit "📍 Point #"; IntD point_count; Lit " added at ("; Fixed6 lat;
     Lit ", "; Fixed6 lng; Lit "). Continue clicking or finish trajectory."].

(** The status text after a trajectory was archived. *)
Definition finished_text (trajectory_num points_saved : nat) : Text :=
  [Lit "✅ Trajectory #"; IntD trajectory_num; Lit " completed with ";
   IntD points_saved; Lit " points! Click to start a new trajectory."].

(** The state in which the archiving part of [finish_current_trajectory]
    starts: the prompt was shown exactly when there is a single point. *)
Definition after_prompt (s : App) : App :=
  if Nat.eqb (length (current_trajectory s)) 1
  then perform single_point_prompt s else s.

(** ** Concrete built-ins for the examples *)

(** ASCII white space as [str.strip] sees it. *)
Definition is_space (c : Ascii.ascii) : bool :=
  let n := Ascii.nat_of_ascii c in
  (Nat.leb 9 n && Nat.leb n 13) || (Nat.leb 28 n && Nat.leb n 32).

Fixpoint lstrip (s : string) : string :=
  match s with
  | String c r => if is_space c then lstrip r else s
  | EmptyString => EmptyString
  end.

Fixpoint rstrip (s : string) : string :=
  match s with
  | String c r =>
      let r' := rstrip r in
      if is_space c && String.eqb r' "" then EmptyString else String c r'
  | EmptyString => EmptyString
  end.

Definition ascii_strip (s : string) : string := rstrip (lstrip s).

(** [float] on the texts the examples type in; any other text is refused
    with the message of Python. *)
Definition example_float (s : string) : string + float :=
  if String.eqb s "10" then inr 10%float
  else if String.eqb s "190" then inr 190%float
  else if String.eqb s "91.0" then inr 91%float
  else if String.eqb s "0.0" then inr 0%float
  else if String.eqb s "nan" then inr nan
  else inl (String.append "could not convert string to float: '"
              (String.append s "'")).

(** Click capture switched off from the start-up state. *)
Definition capture_off_app : App := toggle_click_mode 0 initial_app.

(** ** Markers and lines by role *)

(** The marker of a first point. *)
Definition start_marker (index : nat) (point : Point) : Element :=
  Marker point
    [Lit "🚀 Trajectory "; IntD (index + 1); Lit " - START<br>Lat: ";
     Fixed6 (fst point); Lit "<br>Lng: "; Fixed6 (snd point)]
    [Lit "Start of Trajectory "; IntD (index + 1)]
    (mkIcon "green" "play").

Definition end_marker (index : nat) (point : Point) : Element :=
  Marker point
    [Lit "🏁 Trajectory "; IntD (index + 1); Lit " - END<br>Lat: ";
     Fixed6 (fst point); Lit "<br>Lng: "; Fixed6 (snd point)]
    [Lit "End of Trajectory "; IntD (index + 1)]
    (mkIcon "red" "stop").

Definition interior_marker (color : string) (i : nat) (point : Point) : Element :=
  CircleMarker point 5
    [Lit "Point "; IntD (i + 1); Lit "<br>Lat: "; Fixed6 (fst point);
     Lit "<br>Lng: "; Fixed6 (snd point)]
    [Lit "Point "; IntD (i + 1)]
    color true color 0.7%float None.

Definition current_marker (i : nat) (point : Point) : Element :=
  CircleMarker point 8
    [Lit "Current Point "; IntD (i + 1); Lit "<br>Lat: "; Fixed6 (fst point);
     Lit "<br>Lng: "; Fixed6 (snd point)]
    [Lit "Current Point "; IntD (i + 1)]
    highlight_color true highlight_color 1.0%float (Some 3%Z).

Definition solid_line (color : string) (index : nat) (t : Trajectory) : Element :=
  PolyLine t color 4 0.8%float None
    [Lit "Trajectory "; IntD (index + 1); Lit " ("; IntD (length t);
     Lit " points)"].

Definition dashed_line (t : Trajectory) : Element :=
  PolyLine t highlight_color 5 1.0%float (Some "10, 5")
    [Lit "Current Trajectory ("; IntD (length t); Lit " points)"].

(** Recognisers of the six roles, by kind of element and by style. *)
Definition is_start_marker (e : Element) : bool :=
  match e with
  | Marker _ _ _ ic =>
      String.eqb (icon_color ic) "green" && String.eqb (icon_name ic) "play"
  | _ => false
  end.

Definition is_end_marker (e : Element) : bool :=
  match e with
  | Marker _ _ _ ic =>
      String.eqb (icon_color ic) "red" && String.eqb (icon_name ic) "stop"
  | _ => false
  end.

Definition is_interior_marker (c : string) (e : Element) : bool :=
  match e with
  | CircleMarker _ r _ _ col fill fcol _ _ =>
      Z.eqb r 5 && String.eqb col c && fill && String.eqb fcol c
  | _ => false
  end.

Definition is_current_marker (e : Element) : bool :=
  match e with
  | CircleMarker _ r _ _ col fill fcol _ _ =>
      Z.eqb r 8 && String.eqb col highlight_color && fill
      && String.eqb fcol highlight_color
  | _ => false
  end.

Definition is_solid_line (c : string) (e : Element) : bool :=
  match e with
  | PolyLine _ col _ _ None _ => String.eqb col c
  | _ => false
  end.

Definition is_dashed_line (e : Element) : bool :=
  match e with
  | PolyLine _ col _ _ (Some _) _ => String.eqb col highlight_color
  | _ => false
  end.

Definition count_if (f : Element -> bool) (l : list Element) : nat :=
  length (List.filter f l).

(** The colors an element is drawn with: stroke and fill of a circle, the
    stroke of a line.  A start or end marker is an icon of its own fixed
    color and carries no color of the trajectory. *)
Definition element_colors (e : Element) : list string :=
  match e with
  | Marker _ _ _ _ => []
  | CircleMarker _ _ _ _ col _ fcol _ _ => [col; fcol]
  | PolyLine _ col _ _ _ _ => [col]
  end.

(** ** Objects that are never written *)

(** An allocated object that neither attribute is bound to. *)
Definition detached (st : PyHeap.Store) (l : nat) : Prop :=
  l < length (PyHeap.heap st) /\
  l <> PyHeap.current_ref st /\
  l <> PyHeap.completed_ref st.

(** The addresses a trajectory object refers to. *)
Definition refs (o : list PyHeap.pyval) : list nat :=
  flat_map (fun v => match v with
                     | PyHeap.PyRef p => [p]
                     | PyHeap.PyFloat _ => []
                     end) o.

(** A trajectory object is out of reach of every write when it and its
    points are detached. *)
Definition frozen (st : PyHeap.Store) (a : nat) : Prop :=
  detached st a /\
  forall p, In p (refs (PyHeap.deref (PyHeap.heap st) a)) -> detached st p.

(** ** The heap represents the value-level store *)

(** The trajectory fields and flags of a state. *)
Definition view (s : App) : list Trajectory * Trajectory * bool * bool :=
  (completed_trajectories s, current_trajectory s,
   is_drawing_mode s, click_mode_enabled s).

(** The object [o] lists references to detached two-float lists holding the
    points of [t], in order. *)
Definition points_at (st : PyHeap.Store) (o : list PyHeap.pyval)
    (t : Trajectory) : Prop :=
  Forall2
    (fun v pt =>
       exists p, v = PyHeap.PyRef p /\ detached st p /\
                 PyHeap.heap st !! p
                 = Some [PyHeap.PyFloat (fst pt); PyHeap.PyFloat (snd pt)])
    o t.

Definition is_trajectory (st : PyHeap.Store) (a : nat) (t : Trajectory) : Prop :=
  exists o, PyHeap.heap st !! a = Some o /\ points_at st o t.

(** The two attributes are bound to different lists; the current list holds
    [current]; the completed list refers to detached lists holding the
    trajectories of [completed], in order. *)
Definition represents (st : PyHeap.Store) (completed : list Trajectory)
    (current : Trajectory) : Prop :=
  PyHeap.current_ref st <> PyHeap.completed_ref st /\
  is_trajectory st (PyHeap.current_ref st) current /\
  exists oc,
    PyHeap.heap st !! PyHeap.completed_ref st = Some oc /\
    Forall2
      (fun v t => exists a, v = PyHeap.PyRef a /\ detached st a /\
                            is_trajectory st a t)
      oc completed.

Definition agrees (st : PyHeap.Store) (s : App) : Prop :=
  represents st (completed_trajectories s) (current_trajectory s) /\
  PyHeap.drawing_mode st = is_drawing_mode s /\
  PyHeap.click_mode st = click_mode_enabled s.

(** [st'] keeps every detached object of [st] detached and unchanged. *)
Definition keeps (st st' : PyHeap.Store) : Prop :=
  forall l, detached st l ->
            detached st' l /\ PyHeap.heap st' !! l = PyHeap.heap st !! l.

Definition agrees_view (st : PyHeap.Store)
    (v : list Trajectory * Trajectory * bool * bool) : Prop :=
  represents st (fst (fst (fst v))) (snd (fst (fst v))) /\
  PyHeap.drawing_mode st = snd (fst v) /\
  PyHeap.click_mode st = snd v.

(** ** Reachable states and example states *)

(** The state and the store after start-up and a sequence of calls. *)
Definition state_after (cs : list Call) : App := app_calls cs initial_app.

Definition store_after (cs : list Call) : PyHeap.Store :=
  heap_calls cs PyHeap.initial_store.

(** One point was clicked after start-up. *)
Definition one_point_app : App :=
  add_trajectory_point 40.0%float (-74.0)%float initial_app.

(** The three clicks of the first end-to-end scenario. *)
Definition three_clicks : list Call :=
  [CallAddPoint 40.0%float (-74.0)%float;
   CallAddPoint 40.1%float (-74.1)%float;
   CallAddPoint 40.2%float (-74.2)%float].

(** * The rest of the interface *)

(** ** Place search *)

(** What [geolocator.geocode] gives: a location, [None], or an exception. *)
Inductive GeocodeResult : Type :=
| Found (latitude longitude : float) (address : string)
| NotFound
| GeocodeFailed (msg : string).

Section Search.

(** [str.strip] and the geocoder are taken as they are.  The text of the
    search field is an argument of the method.  [processEvents] is not
    modelled: an event it dispatches is an event of its own, handled before
    the search goes on. *)
Variable strip : string -> string.
Variable geocode : string -> GeocodeResult.

Definition search_marker (place_name : string) (latitude longitude : float)
    (address : string) : Element :=
  Marker (latitude, longitude)
    [Lit "📍 "; Lit place_name; Lit "<br>"; Lit address]
    [Lit "Search Result"]
    (mkIcon "blue" "search").

Definition search_place (place_input : string) (s : App) : App :=
  let place_name := strip place_input in
  if String.eqb place_name "" then
    perform (MsgWarning "Empty Search"
               [Lit "Please enter a place name to search."]) s
  else
    let s0 := set_info_label [Lit "🔍 Searching..."] s in
    match geocode place_name with
    | Found latitude longitude address =>
        let s1 := create_map_at_location (latitude, longitude) 15 s0 in
        let s2 :=
          set_current_map
            (add_to (search_marker place_name latitude longitude address)
               (current_map s1)) s1 in
        let s3 := add_all_trajectories_to_map s2 in
        let s4 := add_map_click_handler s3 in
        let s5 := save_and_display_map s4 in
        set_info_label [Lit "📍 Found: "; Lit address] s5
    | NotFound =>
        set_info_label
          [Lit "❌ Could not find '"; Lit place_name;
           Lit "'. Try a different search."] s0
    | GeocodeFailed msg =>
        set_info_label [Lit "❌ Search error: "; Lit msg] s0
    end.

End Search.

(** ** Operator events *)

(** What the operator can do: click the map, type into the two coordinate
    fields, press a button (answering the prompt it may show), tick the
    click-mode box, pick a tile style, search for a place. *)
Inductive Event : Type :=
| MapClick (lat lng : float)
| EditInputs (lat lon : string)
| AddPointButton
| FinishButton (reply : StandardButton)
| ClearCurrentButton
| ClearAllButton (reply : StandardButton)
| ClickModeCheckbox (state : Z)
| StyleSelected (style : string)
| SearchRequested (place : string).

Section Runs.

Variable strip : string -> string.
Variable float_of_str : string -> string + float.
Variable geocode : string -> GeocodeResult.

(** The slot each signal is connected to. *)
Definition handle (e : Event) (s : App) : App :=
  match e with
  | MapClick lat lng => on_map_click lat lng s
  | EditInputs lat lon => set_inputs lat lon s
  | AddPointButton => add_manual_point strip float_of_str s
  | FinishButton reply => finish_current_trajectory reply s
  | ClearCurrentButton => clear_current_trajectory s
  | ClearAllButton reply => clear_all_trajectories reply s
  | ClickModeCheckbox state => toggle_click_mode state s
  | StyleSelected style => refresh_map (set_map_style_combo style s)
  | SearchRequested place => search_place strip geocode place s
  end.

Definition run (es : list Event) (s : App) : App :=
  fold_left (fun acc e => handle e acc) es s.

End Runs.

Definition is_map_click (e : Event) : bool :=
  match e with
  | MapClick _ _ => true
  | _ => false
  end.

Definition is_confirmed_clear_all (e : Event) : bool :=
  match e with
  | ClearAllButton Yes => true
  | _ => false
  end.

(** ** Notions used in the further statements *)

(** An integer as an f-string prints it. *)
Definition render_int (n : nat) : string :=
  NilEmpty.string_of_uint (Nat.to_uint n).

(** The string a text prints to, for a text without floats. *)
Fixpoint render (t : Text) : option string :=
  match t with
  | [] => Some EmptyString
  | Lit x :: r => option_map (String.append x) (render r)
  | IntD n :: r => option_map (String.append (render_int n)) (render r)
  | Fixed6 _ :: _ => None
  end.

(** The maps published so far, oldest first. *)
Definition published (es : list Effect) : list Map :=
  flat_map (fun e => match e with
                     | DisplayMap m => [m]
                     | _ => []
                     end) es.

(** A coordinate pair that passes both range tests. *)
Definition valid_point (p : Point) : bool :=
  between (-90)%float (fst p) 90%float
  && between (-180)%float (snd p) 180%float.

(** The click script is there exactly once, and custom tiles come with
    their attribution. *)
Definition armed (m : Map) : Prop :=
  html m = [click_script] /\
  (attr m = None <-> tiles m = "OpenStreetMap").

(** The texts of the click-mode label. *)
Definition click_status_text (enabled : bool) : Text :=
  if enabled then [Lit "🟢 Click Mode: ENABLED"]
  else [Lit "🔴 Click Mode: DISABLED"].

Definition click_status_css (enabled : bool) : string :=
  if enabled then "color: green; font-weight: bold;"
  else "color: red; font-weight: bold;".

(** What one event may do to the two trajectory fields. *)
Inductive Change : Type :=
| Added (p : Point)
| Finished
| ClearedCurrent
| ClearedAll
| Restyled (style : string).

Definition changed_store (ch : Change) (completed : list Trajectory)
    (current : Trajectory) : list Trajectory * Trajectory :=
  match ch with
  | Added p => (completed, current ++ [p])
  | Finished => (completed ++ [current], [])
  | ClearedCurrent => (completed, [])
  | ClearedAll => ([], [])
  | Restyled _ => (completed, current)
  end.

(** The fragments [update_status_labels] writes. *)
Definition count_fragments (total_trajectories current_points : nat) : Text :=
  [Lit "Trajectories: "; IntD total_trajectories;
   Lit " | Current Points: "; IntD current_points].

(** An event that left the store, the status labels and the map alone and
    published nothing. *)
Definition quiet (s s' : App) : Prop :=
  view s' = view s /\
  trajectory_count_label s' = trajectory_count_label s /\
  click_status_label s' = click_status_label s /\
  click_status_style s' = click_status_style s /\
  map_style_combo s' = map_style_combo s /\
  current_map s' = current_map s /\
  published (effects s') = published (effects s).

(** An event that set the click-mode flag and its label, and nothing else
    of the store or the map. *)
Definition toggled (s s' : App) : Prop :=
  completed_trajectories s' = completed_trajectories s /\
  current_trajectory s' = current_trajectory s /\
  is_drawing_mode s' = is_drawing_mode s /\
  click_status_label s' = click_status_text (click_mode_enabled s') /\
  click_status_style s' = click_status_css (click_mode_enabled s') /\
  trajectory_count_label s' = trajectory_count_label s /\
  map_style_combo s' = map_style_combo s /\
  current_map s' = current_map s /\
  published (effects s') = published (effects s).

(** An event that changed the store (or the tile style) by [ch], rebuilt
    the scene from the new state and published it. *)
Definition refreshed (ch : Change) (s s' : App) : Prop :=
  (completed_trajectories s', current_trajectory s')
    = changed_store ch (completed_trajectories s) (current_trajectory s) /\
  is_drawing_mode s' = is_drawing_mode s /\
  click_mode_enabled s' = click_mode_enabled s /\
  click_status_label s' = click_status_label s /\
  click_status_style s' = click_status_style s /\
  trajectory_count_label s'
    = match ch with
      | Restyled _ => trajectory_count_label s
      | _ => count_fragments (length (completed_trajectories s'))
               (length (current_trajectory s'))
      end /\
  map_style_combo s'
    = match ch with
      | Restyled style => style
      | _ => map_style_combo s
      end /\
  current_map s' = scene_of s' /\
  published (effects s') = published (effects s) ++ [current_map s'].

(** A search that found its place: the store and the labels of the store
    are as before, and a map around the place, with the search marker ahead
    of the trajectories, was published. *)
Definition searched (s s' : App) : Prop :=
  view s' = view s /\
  trajectory_count_label s' = trajectory_count_label s /\
  click_status_label s' = click_status_label s /\
  click_status_style s' = click_status_style s /\
  map_style_combo s' = map_style_combo s /\
  (exists mk,
     children (current_map s')
     = mk :: scene_elements (completed_trajectories s') (current_trajectory s')) /\
  zoom_start (current_map s') = 15%Z /\
  tiles (current_map s') = tiles (scene_of s') /\
  attr (current_map s') = attr (scene_of s') /\
  html (current_map s') = [click_script] /\
  published (effects s') = published (effects s) ++ [current_map s'].

(** What an event is allowed to change: a point that did not come from a
    map click passed validation; only a non-empty trajectory is archived;
    only a confirmed clear-all empties the completed list. *)
Definition allowed (e : Event) (s : App) (ch : Change) : Prop :=
  match ch with
  | Added p => is_map_click e = true \/ valid_point p = true
  | Finished => current_trajectory s <> []
  | ClearedAll => is_confirmed_clear_all e = true
  | ClearedCurrent => True
  | Restyled _ => True
  end.

(** The state every run keeps. *)
Definition consistent (s : App) : Prop :=
  render (trajectory_count_label s)
    = render (count_fragments (length (completed_trajectories s))
                (length (current_trajectory s))) /\
  click_status_label s = click_status_text (click_mode_enabled s) /\
  click_status_style s = click_status_css (click_mode_enabled s) /\
  last (published (effects s)) = Some (current_map s) /\
  (children (current_map s)
     = scene_elements (completed_trajectories s) (current_trajectory s) \/
   exists mk,
     children (current_map s)
     = mk :: scene_elements (completed_trajectories s) (current_trajectory s)) /\
  tiles (current_map s) = tiles (scene_of s) /\
  attr (current_map s) = attr (scene_of s) /\
  Forall armed (published (effects s)) /\
  Forall (fun t => t <> []) (completed_trajectories s) /\
  is_drawing_mode s = true.

(** The map a successful search builds: around the place, zoom 15, the
    tile layer of the selected style, the search marker ahead of the
    elements of the trajectories, and the click script. *)
Definition search_map (s : App) (mk : Element) (center : Point) : Map :=
  mkMap center 15 (tiles (scene_of s)) (attr (scene_of s))
    (mk :: scene_elements (completed_trajectories s) (current_trajectory s))
    [click_script].

(** Every stored point passes both range tests. *)
Definition all_in_range (s : App) : Prop :=
  Forall (fun p => valid_point p = true) (current_trajectory s) /\
  Forall (Forall (fun p => valid_point p = true)) (completed_trajectories s).

(** A geocoder for the examples: it knows one place. *)
Definition example_geocode (place_name : string) : GeocodeResult :=
  if String.eqb place_name "Times Square" then
    Found 40.758%float (-73.9855)%float "Times Square, Manhattan, New York"
  else NotFound.

(** Where a point marker sits; a line is no point marker. *)
Definition marker_location (e : Element) : option Point :=
  match e with
  | Marker location _ _ _ => Some location
  | CircleMarker location _ _ _ _ _ _ _ _ => Some location
  | PolyLine _ _ _ _ _ _ => None
  end.

(** The points a line runs through; a marker is no line. *)
Definition line_locations (e : Element) : option (list Point) :=
  match e with
  | PolyLine locations _ _ _ _ _ => Some locations
  | _ => None
  end.

(** The events of the examples. *)
Definition typed_run : list Event :=
  [EditInputs " 10" "10 "; AddPointButton; EditInputs "91.0" "0.0";
   AddPointButton; FinishButton Yes].

Definition clicked_run : list Event :=
  [MapClick 40.0%float (-74.0)%float; FinishButton Yes;
   MapClick 40.1%float (-74.1)%float; ClearAllButton No; ClearCurrentButton].

(** * Properties *)

(** ** Building the scene *)

Lemma same_session_refl (s : App) : same_session s s.
Proof. repeat split. Qed.

Lemma same_session_perform (e : Effect) (s : App) :
  same_session s (perform e s).
Proof. repeat split. Qed.

Lemma fold_left_pointwise {A B : Type} (f g : A -> B -> A) (l : list B) (a : A) :
  (forall x y, f x y = g x y) -> fold_left f l a = fold_left g l a.
Proof.
  intros H. revert a. induction l as [|y l IH]; intros a; simpl; [reflexivity|].
  rewrite H. apply IH.
Qed.

Lemma add_children_nil (m : Map) : add_children [] m = m.
Proof. destruct m; unfold add_children; simpl. now rewrite app_nil_r. Qed.

Lemma add_children_app (es fs : list Element) (m : Map) :
  add_children fs (add_children es m) = add_children (es ++ fs) m.
Proof. unfold add_children; simpl. now rewrite app_assoc. Qed.

Lemma add_to_add_children (e : Element) (m : Map) :
  add_to e m = add_children [e] m.
Proof. reflexivity. Qed.

(** A loop that adds one element per item adds the mapped list. *)
Lemma fold_add_to {A : Type} (f : A -> Element) (l : list A) (m : Map) :
  fold_left (fun acc x => add_to (f x) acc) l m = add_children (map f l) m.
Proof.
  revert m. induction l as [|x l IH]; intros m; simpl.
  - symmetry. apply add_children_nil.
  - rewrite IH, add_to_add_children, add_children_app. reflexivity.
Qed.

Lemma fold_add_children {A : Type} (f : A -> list Element) (l : list A) (m : Map) :
  fold_left (fun acc x => add_children (f x) acc) l m
  = add_children (concat (map f l)) m.
Proof.
  revert m. induction l as [|x l IH]; intros m; simpl.
  - symmetry. apply add_children_nil.
  - rewrite IH, add_children_app. reflexivity.
Qed.

Lemma add_single_trajectory_elements (t : Trajectory) (index : nat)
    (completed : bool) (m : Map) :
  add_single_trajectory_to_map t index completed m
  = add_children (trajectory_elements t index completed) m.
Proof.
  unfold add_single_trajectory_to_map, trajectory_elements.
  destruct (Nat.eqb (length t) 0).
  - symmetry. apply add_children_nil.
  - fold (trajectory_color index).
    rewrite (fold_add_to
               (fun ip => point_marker completed (trajectory_color index) index
                            (length t) (fst ip) (snd ip))).
    destruct (Nat.ltb 1 (length t)).
    + rewrite add_to_add_children, add_children_app. reflexivity.
    + rewrite app_nil_r. reflexivity.
Qed.

Lemma add_all_trajectories_scene (s : App) :
  add_all_trajectories_to_map s
  = set_current_map
      (add_children
         (scene_elements (completed_trajectories s) (current_trajectory s))
         (current_map s)) s.
Proof.
  unfold add_all_trajectories_to_map, scene_elements.
  rewrite (fold_left_pointwise
             (fun acc it => add_single_trajectory_to_map (snd it) (fst it) true acc)
             (fun acc it => add_children (trajectory_elements (snd it) (fst it) true) acc))
    by (intros; apply add_single_trajectory_elements).
  rewrite (fold_add_children (fun it => trajectory_elements (snd it) (fst it) true)).
  destruct (current_trajectory s) as [|p t] eqn:E.
  - change (trajectory_elements [] _ false) with (@nil Element).
    now rewrite app_nil_r.
  - rewrite add_single_trajectory_elements, add_children_app. reflexivity.
Qed.

Lemma refresh_map_scene (s : App) :
  refresh_map s = perform (DisplayMap (scene_of s)) (set_current_map (scene_of s) s).
Proof.
  unfold refresh_map, save_and_display_map, add_map_click_handler.
  rewrite add_all_trajectories_scene.
  unfold create_map_at_location, scene_of.
  destruct (truthy (snd (get_map_tiles s))); reflexivity.
Qed.

Lemma refresh_map_store (s : App) :
  completed_trajectories (refresh_map s) = completed_trajectories s /\
  current_trajectory (refresh_map s) = current_trajectory s /\
  is_drawing_mode (refresh_map s) = is_drawing_mode s /\
  click_mode_enabled (refresh_map s) = click_mode_enabled s.
Proof. rewrite refresh_map_scene. repeat split. Qed.

(** The scene depends on the state only through the trajectories and the
    tile style. *)
Lemma scene_of_inputs (s1 s2 : App) :
  completed_trajectories s1 = completed_trajectories s2 ->
  current_trajectory s1 = current_trajectory s2 ->
  map_style_combo s1 = map_style_combo s2 ->
  scene_of s1 = scene_of s2.
Proof.
  intros Hc Hk Hs. unfold scene_of, refresh_center, get_map_tiles.
  rewrite Hc, Hk, Hs. reflexivity.
Qed.

(** ** Preconditions and adding a point *)

Lemma only_reports_perform (e : Effect) (s : App) :
  only_reports e s (perform e s).
Proof. split; [apply same_session_perform | reflexivity]. Qed.

Lemma length_zero_eqb {A : Type} (l : list A) :
  Nat.eqb (length l) 0 = true <-> l = [].
Proof.
  destruct l; simpl; split; intros H; try reflexivity; discriminate.
Qed.

Lemma length_zero_eqb_false {A : Type} (l : list A) :
  l <> [] -> Nat.eqb (length l) 0 = false.
Proof. destruct l; [congruence | reflexivity]. Qed.

(** C4: finishing an empty current trajectory, clearing an empty current
    trajectory and clearing everything when there is nothing at all each
    show one informational message (No Trajectory, Nothing to Clear) and do
    nothing else: every field of the session, the completed trajectories,
    the current trajectory and the click-capture flag among them, keeps its
    value, whatever the operator would have answered to a prompt. *)
Theorem empty_precondition_only_informs (reply : StandardButton) (s : App) :
  current_trajectory s = [] ->
  only_reports no_trajectory_message s (finish_current_trajectory reply s) /\
  only_reports no_current_message s (clear_current_trajectory s) /\
  (completed_trajectories s = [] ->
   only_reports nothing_to_clear_message s (clear_all_trajectories reply s)).
Proof.
  intros Hcur. repeat split_and.
  - unfold finish_current_trajectory. rewrite Hcur. simpl.
    apply only_reports_perform.
  - unfold clear_current_trajectory. rewrite Hcur. simpl.
    apply only_reports_perform.
  - intros Hcomp. unfold clear_all_trajectories. rewrite Hcur, Hcomp. simpl.
    apply only_reports_perform.
Qed.

(** [add_trajectory_point] when both guards let the call through. *)
Lemma add_trajectory_point_enabled (lat lng : float) (s : App) :
  is_drawing_mode s = true ->
  click_mode_enabled s = true ->
  add_trajectory_point lat lng s
  = refresh_map
      (set_info_label
         (point_added_text (S (length (current_trajectory s))) lat lng)
         (update_status_labels
            (set_current_trajectory (current_trajectory s ++ [(lat, lng)]) s))).
Proof.
  intros Hd Hc. unfold add_trajectory_point, point_added_text.
  rewrite Hd, Hc. simpl.
  rewrite length_app, Nat.add_1_r.
  destruct (length (current_trajectory s)); reflexivity.
Qed.

(** [add_trajectory_point] when a guard stops the call. *)
Lemma add_trajectory_point_disabled (lat lng : float) (s : App) :
  is_drawing_mode s = false \/ click_mode_enabled s = false ->
  add_trajectory_point lat lng s = s.
Proof.
  intros [H|H]; unfold add_trajectory_point; rewrite H;
    [reflexivity | now rewrite orb_true_r].
Qed.

(** C5: when the two guards of [add_trajectory_point] let the call through,
    a point with valid coordinates is appended to the current trajectory:
    the count grows by exactly one and the last stored point is the input
    pair itself; the completed trajectories are not touched. *)
Theorem add_point_appends_input (lat lng : float) (s : App) :
  between (-90)%float lat 90%float = true ->
  between (-180)%float lng 180%float = true ->
  is_drawing_mode s = true ->
  click_mode_enabled s = true ->
  current_trajectory (add_trajectory_point lat lng s)
    = current_trajectory s ++ [(lat, lng)] /\
  length (current_trajectory (add_trajectory_point lat lng s))
    = S (length (current_trajectory s)) /\
  last (current_trajectory (add_trajectory_point lat lng s)) = Some (lat, lng) /\
  completed_trajectories (add_trajectory_point lat lng s)
    = completed_trajectories s.
Proof.
  intros _ _ Hd Hc.
  rewrite (add_trajectory_point_enabled lat lng s Hd Hc), refresh_map_scene.
  simpl. repeat split_and; try reflexivity.
  - rewrite length_app. simpl. lia.
  - apply last_snoc.
Qed.

(** ** Finishing and clearing *)

Lemma finish_declined (s : App) :
  length (current_trajectory s) = 1 ->
  finish_current_trajectory No s = perform single_point_prompt s.
Proof.
  intros H. unfold finish_current_trajectory. rewrite H. reflexivity.
Qed.

Lemma finish_saved (reply : StandardButton) (s : App) :
  current_trajectory s <> [] ->
  (length (current_trajectory s) = 1 -> reply = Yes) ->
  finish_current_trajectory reply s
  = refresh_map
      (set_info_label
         (finished_text (S (length (completed_trajectories s)))
            (length (current_trajectory s)))
         (update_status_labels
            (set_current_trajectory []
               (set_completed_trajectories
                  (completed_trajectories s ++ [current_trajectory s])
                  (after_prompt s))))).
Proof.
  intros Hne Hreply. unfold finish_current_trajectory, after_prompt.
  rewrite (length_zero_eqb_false _ Hne).
  destruct (Nat.eqb (length (current_trajectory s)) 1) eqn:E1.
  - apply Nat.eqb_eq in E1. rewrite (Hreply E1). simpl.
    rewrite length_app, Nat.add_1_r. reflexivity.
  - simpl. rewrite length_app, Nat.add_1_r. reflexivity.
Qed.

Lemma clear_current_nonempty (s : App) :
  current_trajectory s <> [] ->
  clear_current_trajectory s
  = refresh_map
      (set_info_label
         [Lit "🗑️ Current trajectory cleared (";
          IntD (length (current_trajectory s));
          Lit " points). Click on map to start new trajectory."]
         (update_status_labels (set_current_trajectory [] s))).
Proof.
  intros Hne. unfold clear_current_trajectory.
  rewrite (length_zero_eqb_false _ Hne). reflexivity.
Qed.

Lemma nothing_to_clear_false (s : App) :
  completed_trajectories s <> [] \/ current_trajectory s <> [] ->
  Nat.eqb (length (completed_trajectories s)) 0
  && Nat.eqb (length (current_trajectory s)) 0 = false.
Proof.
  intros [H|H]; rewrite (length_zero_eqb_false _ H);
    [reflexivity | apply andb_false_r].
Qed.

Lemma clear_all_declined (s : App) :
  completed_trajectories s <> [] \/ current_trajectory s <> [] ->
  clear_all_trajectories No s
  = perform (clear_all_prompt (length (completed_trajectories s))
               (length (current_trajectory s))) s.
Proof.
  intros H. unfold clear_all_trajectories.
  rewrite (nothing_to_clear_false s H). reflexivity.
Qed.

Lemma clear_all_confirmed (s : App) :
  completed_trajectories s <> [] \/ current_trajectory s <> [] ->
  clear_all_trajectories Yes s
  = refresh_map
      (set_info_label
         [Lit "🗑️ All trajectories cleared. Click on the map to start drawing."]
         (update_status_labels
            (set_current_trajectory []
               (set_completed_trajectories []
                  (perform (clear_all_prompt (length (completed_trajectories s))
                              (length (current_trajectory s))) s))))).
Proof.
  intros H. unfold clear_all_trajectories.
  rewrite (nothing_to_clear_false s H). reflexivity.
Qed.

(** C10: when the operator answers No to the prompt of a single-point
    finish or to the confirmation of clear-all, the call shows that prompt
    and does nothing else: the completed trajectories, the current
    trajectory, the click-capture flag, the status labels and the map are
    as before, and nothing is published. *)
Theorem declined_prompt_changes_nothing (s : App) :
  (length (current_trajectory s) = 1 ->
   only_reports single_point_prompt s (finish_current_trajectory No s)) /\
  (completed_trajectories s <> [] \/ current_trajectory s <> [] ->
   only_reports
     (clear_all_prompt (length (completed_trajectories s))
        (length (current_trajectory s)))
     s (clear_all_trajectories No s)).
Proof.
  split.
  - intros H. rewrite (finish_declined s H). apply only_reports_perform.
  - intros H. rewrite (clear_all_declined s H). apply only_reports_perform.
Qed.

(** C6, as the code has it: on a session that is not empty, clear-all first
    asks for confirmation, and the prompt names the number of completed
    trajectories and the number of current points as two separate counts.
    On Yes both collections are emptied, the status text says that all
    trajectories were cleared and the empty scene is published; on No the
    prompt is all that happens. *)
Theorem clear_all_asks_then_empties (reply : StandardButton) (s : App) :
  completed_trajectories s <> [] \/ current_trajectory s <> [] ->
  (exists rest,
     effects (clear_all_trajectories reply s)
     = effects s
       ++ clear_all_prompt (length (completed_trajectories s))
            (length (current_trajectory s)) :: rest) /\
  (reply = Yes ->
   completed_trajectories (clear_all_trajectories reply s) = [] /\
   current_trajectory (clear_all_trajectories reply s) = [] /\
   trajectory_count_label (clear_all_trajectories reply s)
     = [Lit "Trajectories: "; IntD 0; Lit " | Current Points: "; IntD 0] /\
   info_label (clear_all_trajectories reply s)
     = [Lit "🗑️ All trajectories cleared. Click on the map to start drawing."] /\
   children (current_map (clear_all_trajectories reply s)) = []) /\
  (reply = No ->
   only_reports
     (clear_all_prompt (length (completed_trajectories s))
        (length (current_trajectory s)))
     s (clear_all_trajectories reply s)).
Proof.
  intros H. repeat split_and.
  - destruct reply.
    + rewrite (clear_all_confirmed s H), refresh_map_scene. simpl.
      rewrite <- app_assoc. eexists. reflexivity.
    + rewrite (clear_all_declined s H). simpl. eexists. reflexivity.
  - intros ->. rewrite (clear_all_confirmed s H), refresh_map_scene.
    simpl. repeat split.
  - intros ->. rewrite (clear_all_declined s H). apply only_reports_perform.
Qed.

(** ** Manual entry and the click bridge *)

Lemma on_map_click_disabled (lat lng : float) (s : App) :
  click_mode_enabled s = false -> on_map_click lat lng s = s.
Proof. intros H. unfold on_map_click. now rewrite H. Qed.

(** The click path has no range test: whatever the two numbers are, an
    enabled click appends them. *)
Lemma on_map_click_enabled (lat lng : float) (s : App) :
  is_drawing_mode s = true ->
  click_mode_enabled s = true ->
  current_trajectory (on_map_click lat lng s)
  = current_trajectory s ++ [(lat, lng)].
Proof.
  intros Hd Hc. unfold on_map_click. rewrite Hc.
  rewrite (add_trajectory_point_enabled lat lng s Hd Hc), refresh_map_scene.
  reflexivity.
Qed.

Section ManualEntryFacts.

Variable strip : string -> string.
Variable float_of_str : string -> string + float.

Lemma inputs_read_nonempty (s : App) (lat lng : float) :
  inputs_read strip float_of_str s lat lng ->
  String.eqb (strip (lat_input s)) "" || String.eqb (strip (lon_input s)) ""
  = false.
Proof.
  intros (H1 & H2 & _).
  apply String.eqb_neq in H1, H2. now rewrite H1, H2.
Qed.

(** A latitude outside [-90, 90] (NaN included) is refused with the
    latitude message, and nothing else happens. *)
Lemma manual_latitude_refused (s : App) (lat lng : float) :
  inputs_read strip float_of_str s lat lng ->
  between (-90)%float lat 90%float = false ->
  add_manual_point strip float_of_str s
  = invalid_coordinates "Latitude must be between -90 and 90 degrees" s.
Proof.
  intros Hin Hlat. unfold add_manual_point.
  rewrite (inputs_read_nonempty s lat lng Hin).
  destruct Hin as (_ & _ & -> & ->). now rewrite Hlat.
Qed.

(** A longitude outside [-180, 180], with a latitude in range, is refused
    with the longitude message. *)
Lemma manual_longitude_refused (s : App) (lat lng : float) :
  inputs_read strip float_of_str s lat lng ->
  between (-90)%float lat 90%float = true ->
  between (-180)%float lng 180%float = false ->
  add_manual_point strip float_of_str s
  = invalid_coordinates "Longitude must be between -180 and 180 degrees" s.
Proof.
  intros Hin Hlat Hlng. unfold add_manual_point.
  rewrite (inputs_read_nonempty s lat lng Hin).
  destruct Hin as (_ & _ & -> & ->). now rewrite Hlat, Hlng.
Qed.

(** Valid coordinates go to [add_trajectory_point]; then the fields are
    cleared and the latitude field takes the focus. *)
Lemma manual_valid (s : App) (lat lng : float) :
  inputs_read strip float_of_str s lat lng ->
  between (-90)%float lat 90%float = true ->
  between (-180)%float lng 180%float = true ->
  add_manual_point strip float_of_str s
  = perform SetFocusLat (set_inputs "" "" (add_trajectory_point lat lng s)).
Proof.
  intros Hin Hlat Hlng. unfold add_manual_point.
  rewrite (inputs_read_nonempty s lat lng Hin).
  destruct Hin as (_ & _ & -> & ->). now rewrite Hlat, Hlng.
Qed.

(** With click capture on, valid coordinates typed in are appended as
    read. *)
Lemma manual_entry_appends (s : App) (lat lng : float) :
  inputs_read strip float_of_str s lat lng ->
  between (-90)%float lat 90%float = true ->
  between (-180)%float lng 180%float = true ->
  is_drawing_mode s = true ->
  click_mode_enabled s = true ->
  current_trajectory (add_manual_point strip float_of_str s)
  = current_trajectory s ++ [(lat, lng)].
Proof.
  intros Hin Hlat Hlng Hd Hc.
  rewrite (manual_valid s lat lng Hin Hlat Hlng).
  rewrite (add_trajectory_point_enabled lat lng s Hd Hc), refresh_map_scene.
  reflexivity.
Qed.

(** Whatever the fields hold, manual entry changes no trajectory while
    click capture is off: its only way to the store is
    [add_trajectory_point], which tests the flag again. *)
Lemma manual_entry_is_gated (s : App) :
  click_mode_enabled s = false ->
  current_trajectory (add_manual_point strip float_of_str s)
  = current_trajectory s /\
  completed_trajectories (add_manual_point strip float_of_str s)
  = completed_trajectories s.
Proof.
  intros Hoff. unfold add_manual_point, invalid_coordinates.
  destruct (String.eqb _ _ || String.eqb _ _); [now split|].
  destruct (float_of_str (strip (lat_input s))) as [m|lat]; [now split|].
  destruct (float_of_str (strip (lon_input s))) as [m|lng]; [now split|].
  destruct (negb (between _ lat _)); [now split|].
  destruct (negb (between _ lng _)); [now split|].
  rewrite (add_trajectory_point_disabled lat lng s (or_intror Hoff)).
  now split.
Qed.

End ManualEntryFacts.

(** C1, the code at the input where it departs from the claim: with click
    capture off a map click at (10, 10) is dropped without a trace, as the
    claim says; but typing 10 and 10 and pressing Add Point adds no point
    either: the fields are cleared, the focus moves, and the current
    trajectory stays empty.  With click capture on the same entry stores
    the point. *)
Theorem manual_entry_blocked_by_click_gate :
  click_mode_enabled capture_off_app = false /\
  on_map_click 10%float 10%float capture_off_app = capture_off_app /\
  add_manual_point ascii_strip example_float
    (set_inputs "10" "10" capture_off_app)
  = perform SetFocusLat capture_off_app /\
  current_trajectory
    (add_manual_point ascii_strip example_float
       (set_inputs "10" "10" capture_off_app)) = [] /\
  current_trajectory
    (add_manual_point ascii_strip example_float
       (set_inputs "10" "10" initial_app)) = [(10%float, 10%float)].
Proof. repeat split_and; reflexivity. Qed.

(** C2, the code at the input where it departs from the claim: a click at
    longitude 190 (the map panned past the antimeridian) is stored, since
    the click path never runs the range test; the same two numbers typed in
    are refused with the longitude message and leave the session alone. *)
Theorem map_click_is_not_validated :
  between (-180)%float 190%float 180%float = false /\
  current_trajectory (on_map_click 10%float 190%float initial_app)
  = [(10%float, 190%float)] /\
  only_reports
    (MsgWarning "Invalid Coordinates"
       [Lit "Error: ";
        Lit "Longitude must be between -180 and 180 degrees"])
    (set_inputs "10" "190" initial_app)
    (add_manual_point ascii_strip example_float
       (set_inputs "10" "190" initial_app)).
Proof.
  repeat split_and; try reflexivity.
  exact (only_reports_perform _ (set_inputs "10" "190" initial_app)).
Qed.

(** ** The shape of the scene *)

Lemma map_enumerate_from {A B : Type} (g : nat -> A -> B) (k : nat) (l : list A) :
  map (fun ip => g (fst ip) (snd ip)) (enumerate_from k l)
  = imap (fun i => g (k + i)) l.
Proof.
  revert k g. induction l as [|x l IH]; intros k g; simpl; [reflexivity|].
  rewrite Nat.add_0_r. f_equal.
  rewrite IH. apply imap_ext. intros i y _. simpl.
  f_equal. lia.
Qed.

Lemma map_enumerate {A B : Type} (g : nat -> A -> B) (l : list A) :
  map (fun ip => g (fst ip) (snd ip)) (enumerate l) = imap g l.
Proof. unfold enumerate. now rewrite map_enumerate_from. Qed.

Lemma trajectory_elements_nil (index : nat) (completed : bool) :
  trajectory_elements [] index completed = [].
Proof. reflexivity. Qed.

Lemma completed_elements_single (index : nat) (p : Point) :
  trajectory_elements [p] index true = [start_marker index p].
Proof. reflexivity. Qed.

Lemma imap_cons_snoc {A B : Type} (g : nat -> A -> B) (p q : A) (mid : list A) :
  imap g (p :: mid ++ [q])
  = g 0 p :: imap (fun k => g (S k)) mid ++ [g (S (length mid)) q].
Proof.
  simpl. f_equal. rewrite imap_app. simpl. unfold compose.
  now rewrite Nat.add_0_r.
Qed.

Lemma point_marker_first (color : string) (index n : nat) (point : Point) :
  point_marker true color index n 0 point = start_marker index point.
Proof. reflexivity. Qed.

Lemma point_marker_last (color : string) (index i : nat) (point : Point) :
  point_marker true color index (S (S i)) (S i) point = end_marker index point.
Proof.
  unfold point_marker. change (Nat.eqb (S i) 0) with false.
  replace (S (S i) - 1) with (S i) by lia.
  now rewrite Nat.eqb_refl.
Qed.

Lemma point_marker_interior (color : string) (index n i : nat) (point : Point) :
  i <> 0 -> i <> n - 1 ->
  point_marker true color index n i point = interior_marker color i point.
Proof.
  intros H0 Hn. unfold point_marker.
  apply Nat.eqb_neq in H0, Hn. now rewrite H0, Hn.
Qed.

Lemma point_marker_current (color : string) (index n i : nat) (point : Point) :
  point_marker false color index n i point = current_marker i point.
Proof. reflexivity. Qed.

Lemma completed_elements_long (index : nat) (p q : Point) (mid : list Point) :
  trajectory_elements (p :: mid ++ [q]) index true
  = [start_marker index p]
    ++ imap (fun k x => interior_marker (trajectory_color index) (S k) x) mid
    ++ [end_marker index q;
        solid_line (trajectory_color index) index (p :: mid ++ [q])].
Proof.
  unfold trajectory_elements.
  change (Nat.eqb (length (p :: mid ++ [q])) 0) with false.
  assert (Hlen : length (p :: mid ++ [q]) = S (S (length mid)))
    by (simpl; rewrite length_app; simpl; lia).
  rewrite Hlen. change (Nat.ltb 1 (S (S (length mid)))) with true.
  rewrite (map_enumerate
             (fun i x => point_marker true (trajectory_color index) index
                           (S (S (length mid))) i x)).
  rewrite imap_cons_snoc, point_marker_first, point_marker_last.
  change (trajectory_line true (trajectory_color index) index (p :: mid ++ [q]))
    with (solid_line (trajectory_color index) index (p :: mid ++ [q])).
  rewrite (imap_ext _
             (fun k x => interior_marker (trajectory_color index) (S k) x) mid).
  - simpl. rewrite <- app_assoc. reflexivity.
  - intros i x Hi. apply lookup_lt_Some in Hi.
    apply point_marker_interior; lia.
Qed.

Lemma current_elements (index : nat) (t : Trajectory) :
  t <> [] ->
  trajectory_elements t index false
  = imap current_marker t
    ++ (if Nat.ltb 1 (length t) then [dashed_line t] else []).
Proof.
  intros Hne. unfold trajectory_elements.
  rewrite (length_zero_eqb_false _ Hne).
  rewrite (map_enumerate
             (fun i x => point_marker false (trajectory_color index) index
                           (length t) i x)).
  reflexivity.
Qed.

Lemma count_if_app (f : Element -> bool) (l1 l2 : list Element) :
  count_if f (l1 ++ l2) = count_if f l1 + count_if f l2.
Proof. unfold count_if. now rewrite List.filter_app, length_app. Qed.

Lemma count_if_imap_all {A : Type} (f : Element -> bool)
    (g : nat -> A -> Element) (l : list A) :
  (forall i x, f (g i x) = true) -> count_if f (imap g l) = length l.
Proof.
  unfold count_if. revert g.
  induction l as [|x l IH]; intros g H; simpl; [reflexivity|].
  rewrite H. simpl. f_equal. apply IH. intros i y. apply H.
Qed.

Lemma count_if_imap_none {A : Type} (f : Element -> bool)
    (g : nat -> A -> Element) (l : list A) :
  (forall i x, f (g i x) = false) -> count_if f (imap g l) = 0.
Proof.
  unfold count_if. revert g.
  induction l as [|x l IH]; intros g H; simpl; [reflexivity|].
  rewrite H. apply IH. intros i y. apply H.
Qed.

(** A list is empty, a singleton, or a first element, a middle and a last
    element. *)
Lemma first_middle_last {A : Type} (l : list A) :
  l = [] \/ (exists p, l = [p]) \/ (exists p mid q, l = p :: mid ++ [q]).
Proof.
  destruct l as [|p r]; [now left | right].
  induction r as [|q mid _] using rev_ind.
  - left. now exists p.
  - right. now exists p, mid, q.
Qed.

Lemma completed_counts (index : nat) (t : Trajectory) :
  count_if is_start_marker (trajectory_elements t index true)
    = Nat.min 1 (length t) /\
  count_if is_end_marker (trajectory_elements t index true)
    = (if Nat.leb 2 (length t) then 1 else 0) /\
  count_if (is_interior_marker (trajectory_color index))
      (trajectory_elements t index true)
    = length t - 2 /\
  count_if (is_solid_line (trajectory_color index))
      (trajectory_elements t index true)
    = (if Nat.leb 2 (length t) then 1 else 0) /\
  length (trajectory_elements t index true)
    = length t + (if Nat.leb 2 (length t) then 1 else 0).
Proof.
  destruct (first_middle_last t) as [-> | [[p ->] | (p & mid & q & ->)]].
  - repeat split.
  - repeat split.
  - rewrite completed_elements_long.
    assert (Hlen : length (p :: mid ++ [q]) = S (S (length mid)))
      by (simpl; rewrite length_app; simpl; lia).
    rewrite Hlen. change (Nat.leb 2 (S (S (length mid)))) with true.
    repeat split_and.
    + rewrite !count_if_app, count_if_imap_none by reflexivity. reflexivity.
    + rewrite !count_if_app, count_if_imap_none by reflexivity. reflexivity.
    + rewrite !count_if_app, count_if_imap_all.
      * unfold count_if. simpl. lia.
      * intros i x. unfold is_interior_marker, interior_marker.
        now rewrite String.eqb_refl.
    + rewrite !count_if_app, count_if_imap_none by reflexivity.
      unfold count_if. simpl. now rewrite String.eqb_refl.
    + rewrite !length_app, length_imap. simpl. lia.
Qed.

Lemma current_counts (index : nat) (t : Trajectory) :
  count_if is_current_marker (trajectory_elements t index false) = length t /\
  count_if is_dashed_line (trajectory_elements t index false)
    = (if Nat.leb 2 (length t) then 1 else 0).
Proof.
  destruct t as [|p r]; [now split|].
  rewrite current_elements by discriminate.
  change (Nat.ltb 1 (length (p :: r))) with (Nat.leb 2 (length (p :: r))).
  rewrite !count_if_app.
  rewrite count_if_imap_all by reflexivity.
  rewrite count_if_imap_none by reflexivity.
  destruct (Nat.leb 2 (length (p :: r))); split; unfold count_if; simpl; lia.
Qed.

(** C8: what each trajectory puts on the map.  A completed trajectory of one
    point gives its start marker alone; one of two points or more gives the
    start marker at the first point, a small filled circle in the palette
    color at every interior point, the end marker at the last point and
    then a solid line through all points.  So there is an end marker, and
    a solid line, exactly when there are two points or more.  A current
    trajectory that is not empty gives one larger circle in the highlight
    color per point, in order, and then a dashed highlight line exactly when
    it has two points or more. *)
Theorem trajectory_contributions (index : nat) (m : Map) (t : Trajectory) :
  children (add_single_trajectory_to_map t index true m)
    = children m ++ trajectory_elements t index true /\
  children (add_single_trajectory_to_map t index false m)
    = children m ++ trajectory_elements t index false /\
  (forall p, trajectory_elements [p] index true = [start_marker index p]) /\
  (forall p mid q,
     trajectory_elements (p :: mid ++ [q]) index true
     = [start_marker index p]
       ++ imap (fun k x => interior_marker (trajectory_color index) (S k) x) mid
       ++ [end_marker index q;
           solid_line (trajectory_color index) index (p :: mid ++ [q])]) /\
  count_if is_start_marker (trajectory_elements t index true)
    = Nat.min 1 (length t) /\
  count_if is_end_marker (trajectory_elements t index true)
    = (if Nat.leb 2 (length t) then 1 else 0) /\
  count_if (is_interior_marker (trajectory_color index))
      (trajectory_elements t index true)
    = length t - 2 /\
  count_if (is_solid_line (trajectory_color index))
      (trajectory_elements t index true)
    = (if Nat.leb 2 (length t) then 1 else 0) /\
  length (trajectory_elements t index true)
    = length t + (if Nat.leb 2 (length t) then 1 else 0) /\
  trajectory_elements t index false
    = match t with
      | [] => []
      | _ :: _ =>
          imap current_marker t
          ++ (if Nat.leb 2 (length t) then [dashed_line t] else [])
      end /\
  count_if is_current_marker (trajectory_elements t index false) = length t /\
  count_if is_dashed_line (trajectory_elements t index false)
    = (if Nat.leb 2 (length t) then 1 else 0).
Proof.
  pose proof (completed_counts index t) as (C1 & C2 & C3 & C4 & C5).
  pose proof (current_counts index t) as (K1 & K2).
  repeat split_and; try assumption.
  - now rewrite add_single_trajectory_elements.
  - now rewrite add_single_trajectory_elements.
  - intros p. apply completed_elements_single.
  - intros p mid q. apply completed_elements_long.
  - destruct t as [|p r]; [reflexivity|].
    now rewrite current_elements by discriminate.
Qed.

(** ** Colors and order *)

Lemma completed_elements_colors (t : Trajectory) (index : nat) :
  Forall (fun e => Forall (eq (trajectory_color index)) (element_colors e))
         (trajectory_elements t index true).
Proof.
  unfold trajectory_elements.
  destruct (Nat.eqb (length t) 0); [constructor|].
  apply Forall_app. split.
  - apply List.Forall_map, Forall_forall. intros [i p] _. simpl.
    unfold point_marker.
    destruct (Nat.eqb i 0); [constructor|].
    destruct (Nat.eqb i (length t - 1)); repeat constructor.
  - destruct (Nat.ltb 1 (length t)); repeat constructor.
Qed.

Lemma current_elements_colors (t : Trajectory) (index : nat) :
  Forall (fun e => element_colors e <> [] /\
                   Forall (eq highlight_color) (element_colors e))
         (trajectory_elements t index false).
Proof.
  unfold trajectory_elements.
  destruct (Nat.eqb (length t) 0); [constructor|].
  apply Forall_app. split.
  - apply List.Forall_map, Forall_forall. intros [i p] _. simpl.
    split; [discriminate | repeat constructor].
  - destruct (Nat.ltb 1 (length t)); repeat constructor. discriminate.
Qed.

Lemma highlight_not_in_palette : ~ In highlight_color trajectory_colors.
Proof.
  unfold trajectory_colors. simpl.
  intros H. repeat (destruct H as [H|H]; [discriminate H|]). exact H.
Qed.

Lemma trajectory_color_lookup (index : nat) :
  trajectory_colors !! (index mod length trajectory_colors)
  = Some (trajectory_color index).
Proof.
  unfold trajectory_color.
  assert (Hlt : index mod length trajectory_colors < length trajectory_colors)
    by (apply Nat.mod_upper_bound; discriminate).
  destruct (lookup_lt_is_Some_2 _ _ Hlt) as [c Hc].
  rewrite Hc. f_equal. symmetry. now apply nth_lookup_Some.
Qed.

Lemma scene_elements_by_index (completed : list Trajectory) (current : Trajectory) :
  scene_elements completed current
  = concat (imap (fun i t => trajectory_elements t i true) completed)
    ++ trajectory_elements current (length completed) false.
Proof.
  unfold scene_elements.
  now rewrite (map_enumerate (fun i t => trajectory_elements t i true)).
Qed.

Lemma refresh_map_children (s : App) :
  children (current_map (refresh_map s))
  = concat (imap (fun i t => trajectory_elements t i true)
              (completed_trajectories s))
    ++ trajectory_elements (current_trajectory s)
         (length (completed_trajectories s)) false.
Proof.
  rewrite refresh_map_scene. simpl. apply scene_elements_by_index.
Qed.

Lemma same_index_same_color (t : Trajectory) (index : nat) (e : Element)
    (c : string) :
  In e (trajectory_elements t index true) -> In c (element_colors e) ->
  trajectory_color index = c.
Proof.
  intros He Hc.
  pose proof (completed_elements_colors t index) as F.
  rewrite List.Forall_forall in F. specialize (F e He).
  rewrite List.Forall_forall in F. exact (F c Hc).
Qed.

(** C7: the color of a completed trajectory is the palette entry at its
    0-based index modulo the palette size (15): every circle and line of
    the trajectory drawn with index [i] has exactly that color, and in the
    scene of a state the trajectory at position [i] of the completed list is
    drawn with index [i].  The color is therefore the same in any two
    stores, whatever the points.  Every element of the current trajectory is
    drawn in the highlight color, which is no palette color. *)
Theorem color_is_palette_at_index (s : App) (t : Trajectory) (index : nat) :
  length trajectory_colors = 15 /\
  trajectory_colors !! (index mod 15) = Some (trajectory_color index) /\
  Forall (fun e => Forall (eq (trajectory_color index)) (element_colors e))
         (trajectory_elements t index true) /\
  children (current_map (refresh_map s))
    = concat (imap (fun i t => trajectory_elements t i true)
                (completed_trajectories s))
      ++ trajectory_elements (current_trajectory s)
           (length (completed_trajectories s)) false /\
  (forall (s1 s2 : App) (i : nat) (t1 t2 : Trajectory) (e1 e2 : Element)
          (c1 c2 : string),
     completed_trajectories s1 !! i = Some t1 ->
     completed_trajectories s2 !! i = Some t2 ->
     In e1 (trajectory_elements t1 i true) ->
     In e2 (trajectory_elements t2 i true) ->
     In c1 (element_colors e1) -> In c2 (element_colors e2) -> c1 = c2) /\
  Forall (fun e => element_colors e <> [] /\
                   Forall (eq highlight_color) (element_colors e))
         (trajectory_elements t index false) /\
  ~ In highlight_color trajectory_colors.
Proof.
  repeat split_and.
  - reflexivity.
  - apply (trajectory_color_lookup index).
  - apply completed_elements_colors.
  - apply refresh_map_children.
  - intros s1 s2 i t1 t2 e1 e2 c1 c2 _ _ He1 He2 Hc1 Hc2.
    rewrite <- (same_index_same_color t1 i e1 c1 He1 Hc1).
    apply (same_index_same_color t2 i e2 c2 He2 Hc2).
  - apply current_elements_colors.
  - apply highlight_not_in_palette.
Qed.

(** C9: building the scene always succeeds and depends on nothing but the
    trajectories and the tile style: the elements are those of the
    completed trajectories in index order followed by those of the current
    trajectory; a second refresh builds the very same map; each refresh
    publishes the map it built, once; and two states with the same
    trajectories and tile style get the same map, whatever else differs. *)
Theorem scene_is_deterministic (s : App) :
  children (current_map (refresh_map s))
    = concat (imap (fun i t => trajectory_elements t i true)
                (completed_trajectories s))
      ++ trajectory_elements (current_trajectory s)
           (length (completed_trajectories s)) false /\
  html (current_map (refresh_map s)) = [click_script] /\
  current_map (refresh_map (refresh_map s)) = current_map (refresh_map s) /\
  effects (refresh_map s)
    = effects s ++ [DisplayMap (current_map (refresh_map s))] /\
  (forall s2 : App,
     completed_trajectories s2 = completed_trajectories s ->
     current_trajectory s2 = current_trajectory s ->
     map_style_combo s2 = map_style_combo s ->
     current_map (refresh_map s2) = current_map (refresh_map s)).
Proof.
  repeat split_and.
  - apply refresh_map_children.
  - now rewrite refresh_map_scene.
  - rewrite !refresh_map_scene. simpl. now apply scene_of_inputs.
  - now rewrite refresh_map_scene.
  - intros s2 Hc Hk Hs. rewrite !refresh_map_scene. simpl.
    now apply scene_of_inputs.
Qed.

(** ** Objects that are never written *)

Lemma length_list_append (a : nat) (v : PyHeap.pyval) (h : list (list PyHeap.pyval)) :
  length (PyHeap.list_append a v h) = length h.
Proof. unfold PyHeap.list_append. apply length_insert. Qed.

Lemma lookup_list_append_ne (a l : nat) (v : PyHeap.pyval)
    (h : list (list PyHeap.pyval)) :
  l <> a -> PyHeap.list_append a v h !! l = h !! l.
Proof.
  intros Hne. unfold PyHeap.list_append.
  apply list_lookup_insert_ne. congruence.
Qed.

Lemma lookup_list_append_eq (a : nat) (v : PyHeap.pyval)
    (h : list (list PyHeap.pyval)) (o : list PyHeap.pyval) :
  h !! a = Some o -> PyHeap.list_append a v h !! a = Some (o ++ [v]).
Proof.
  intros Ha. unfold PyHeap.list_append, PyHeap.deref. rewrite Ha. simpl.
  apply list_lookup_insert_eq. now apply lookup_lt_Some in Ha.
Qed.

(** Every call writes to the two bound lists and to new objects only: a
    detached object stays detached and keeps its elements. *)
Lemma heap_call_frame (c : Call) (st : PyHeap.Store) (l : nat) :
  detached st l ->
  detached (heap_call c st) l /\
  PyHeap.heap (heap_call c st) !! l = PyHeap.heap st !! l.
Proof.
  intros (Hlt & Hcur & Hcomp).
  assert (Hadd : forall lat lng,
             detached (PyHeap.add_trajectory_point lat lng st) l /\
             PyHeap.heap (PyHeap.add_trajectory_point lat lng st) !! l
             = PyHeap.heap st !! l).
  { intros lat lng. unfold PyHeap.add_trajectory_point.
    destruct (negb _ || negb _); [now repeat split|].
    unfold detached. simpl.
    rewrite length_list_append, length_app, lookup_list_append_ne by assumption.
    rewrite lookup_app_l by assumption. simpl. repeat split; (lia || assumption). }
  destruct c as [lat lng | lat lng | reply | | reply | state]; simpl.
  - apply Hadd.
  - unfold PyHeap.on_map_click. destruct (PyHeap.click_mode st);
      [apply Hadd | now repeat split].
  - unfold PyHeap.finish_current_trajectory.
    destruct (Nat.eqb _ 0); [now repeat split|].
    destruct (Nat.eqb _ 1 && _); [now repeat split|].
    unfold detached. simpl.
    rewrite !length_app, length_list_append, length_app. simpl.
    rewrite lookup_app_l by (rewrite length_list_append, length_app; simpl; lia).
    rewrite lookup_list_append_ne by assumption.
    rewrite lookup_app_l by assumption.
    repeat split; (lia || assumption).
  - unfold PyHeap.clear_current_trajectory.
    destruct (Nat.eqb _ 0); [now repeat split|].
    unfold detached. simpl. rewrite length_app, lookup_app_l by assumption.
    simpl. repeat split; (lia || assumption).
  - unfold PyHeap.clear_all_trajectories.
    destruct (Nat.eqb _ 0 && Nat.eqb _ 0); [now repeat split|].
    destruct (StandardButton_eqb reply Yes); [|now repeat split].
    unfold detached. simpl. rewrite length_app, lookup_app_l by assumption.
    simpl. repeat split; (lia || assumption).
  - now repeat split.
Qed.

(** Reading a trajectory looks at its object and at its points only. *)
Lemma read_trajectory_agree (h h' : list (list PyHeap.pyval)) (a : nat) :
  h' !! a = h !! a ->
  (forall p, In p (refs (PyHeap.deref h a)) -> h' !! p = h !! p) ->
  PyHeap.read_trajectory h' a = PyHeap.read_trajectory h a.
Proof.
  intros Ha Hp. unfold PyHeap.read_trajectory. rewrite Ha.
  unfold PyHeap.deref in Hp.
  destruct (h !! a) as [o|]; [|reflexivity]. simpl in Hp.
  apply Forall_mapM_ext, Forall_forall. intros v Hv.
  destruct v as [x|p]; [reflexivity|]. simpl.
  unfold PyHeap.read_point. rewrite Hp; [reflexivity|].
  unfold refs. apply in_flat_map. exists (PyHeap.PyRef p).
  split; [now apply list_elem_of_In | now left].
Qed.

Lemma heap_call_frozen (c : Call) (st : PyHeap.Store) (a : nat) :
  frozen st a ->
  frozen (heap_call c st) a /\
  PyHeap.heap (heap_call c st) !! a = PyHeap.heap st !! a /\
  PyHeap.read_trajectory (PyHeap.heap (heap_call c st)) a
  = PyHeap.read_trajectory (PyHeap.heap st) a.
Proof.
  intros [Ha Hp].
  destruct (heap_call_frame c st a Ha) as [Ha' Ea].
  assert (Ed : PyHeap.deref (PyHeap.heap (heap_call c st)) a
               = PyHeap.deref (PyHeap.heap st) a)
    by (unfold PyHeap.deref; now rewrite Ea).
  repeat split_and.
  - split; [exact Ha'|]. intros p Hin. rewrite Ed in Hin.
    apply (heap_call_frame c st p (Hp p Hin)).
  - exact Ea.
  - apply read_trajectory_agree; [exact Ea|].
    intros p Hin. apply (heap_call_frame c st p (Hp p Hin)).
Qed.

Lemma heap_calls_frozen (cs : list Call) (st : PyHeap.Store) (a : nat) :
  frozen st a ->
  frozen (heap_calls cs st) a /\
  PyHeap.heap (heap_calls cs st) !! a = PyHeap.heap st !! a /\
  PyHeap.read_trajectory (PyHeap.heap (heap_calls cs st)) a
  = PyHeap.read_trajectory (PyHeap.heap st) a.
Proof.
  revert st. induction cs as [|c cs IH]; intros st Hf; simpl.
  - repeat split_and; [exact Hf | reflexivity | reflexivity].
  - destruct (heap_call_frozen c st a Hf) as (Hf' & E1 & E2).
    destruct (IH (heap_call c st) Hf') as (Hf'' & E3 & E4).
    repeat split_and; [exact Hf'' | congruence | congruence].
Qed.

(** ** The heap represents the value-level store *)

Lemma view_refresh_map (s : App) : view (refresh_map s) = view s.
Proof. now rewrite refresh_map_scene. Qed.

Lemma view_add_trajectory_point (lat lng : float) (s : App) :
  view (add_trajectory_point lat lng s)
  = if negb (is_drawing_mode s) || negb (click_mode_enabled s) then view s
    else (completed_trajectories s, current_trajectory s ++ [(lat, lng)],
          is_drawing_mode s, click_mode_enabled s).
Proof.
  destruct (is_drawing_mode s) eqn:Hd, (click_mode_enabled s) eqn:Hc; simpl;
    try (rewrite add_trajectory_point_disabled by auto; reflexivity).
  rewrite (add_trajectory_point_enabled lat lng s Hd Hc), view_refresh_map.
  unfold view. simpl. now rewrite Hd, Hc.
Qed.

Lemma view_on_map_click (lat lng : float) (s : App) :
  view (on_map_click lat lng s)
  = if click_mode_enabled s then view (add_trajectory_point lat lng s)
    else view s.
Proof. unfold on_map_click. now destruct (click_mode_enabled s). Qed.

Lemma view_finish_current_trajectory (reply : StandardButton) (s : App) :
  view (finish_current_trajectory reply s)
  = if Nat.eqb (length (current_trajectory s)) 0 then view s
    else if Nat.eqb (length (current_trajectory s)) 1
            && StandardButton_eqb reply No then view s
    else (completed_trajectories s ++ [current_trajectory s], [],
          is_drawing_mode s, click_mode_enabled s).
Proof.
  destruct (Nat.eqb (length (current_trajectory s)) 0) eqn:E0.
  - unfold finish_current_trajectory. now rewrite E0.
  - destruct (Nat.eqb (length (current_trajectory s)) 1
              && StandardButton_eqb reply No) eqn:E1.
    + unfold finish_current_trajectory. rewrite E0.
      simpl. rewrite E1.
      now destruct (Nat.eqb (length (current_trajectory s)) 1).
    + rewrite finish_saved.
      * rewrite view_refresh_map. unfold view, after_prompt. simpl.
        now destruct (Nat.eqb (length (current_trajectory s)) 1).
      * intros H. now rewrite H in E0.
      * intros H. rewrite H in E1. now destruct reply.
Qed.

Lemma view_clear_current_trajectory (s : App) :
  view (clear_current_trajectory s)
  = if Nat.eqb (length (current_trajectory s)) 0 then view s
    else (completed_trajectories s, [], is_drawing_mode s, click_mode_enabled s).
Proof.
  unfold clear_current_trajectory.
  destruct (Nat.eqb (length (current_trajectory s)) 0); [reflexivity|].
  now rewrite view_refresh_map.
Qed.

Lemma view_clear_all_trajectories (reply : StandardButton) (s : App) :
  view (clear_all_trajectories reply s)
  = if Nat.eqb (length (completed_trajectories s)) 0
       && Nat.eqb (length (current_trajectory s)) 0 then view s
    else if StandardButton_eqb reply Yes
    then ([], [], is_drawing_mode s, click_mode_enabled s)
    else view s.
Proof.
  unfold clear_all_trajectories.
  destruct (Nat.eqb _ 0 && Nat.eqb _ 0); [reflexivity|].
  destruct (StandardButton_eqb reply Yes); [|reflexivity].
  now rewrite view_refresh_map.
Qed.

Lemma view_toggle_click_mode (state : Z) (s : App) :
  view (toggle_click_mode state s)
  = (completed_trajectories s, current_trajectory s, is_drawing_mode s,
     Z.eqb state Qt_Checked).
Proof.
  unfold toggle_click_mode. simpl. now destruct (Z.eqb state Qt_Checked).
Qed.

Lemma heap_call_keeps (c : Call) (st : PyHeap.Store) : keeps st (heap_call c st).
Proof. intros l. apply heap_call_frame. Qed.

Lemma points_at_keeps (st st' : PyHeap.Store) (o : list PyHeap.pyval)
    (t : Trajectory) :
  keeps st st' -> points_at st o t -> points_at st' o t.
Proof.
  intros K H. unfold points_at in *. eapply Forall2_impl; [exact H|].
  intros v pt (p & -> & Hd & Hp). exists p.
  destruct (K p Hd) as [Hd' E].
  repeat split_and; [reflexivity | exact Hd' | congruence].
Qed.

Lemma is_trajectory_keeps (st st' : PyHeap.Store) (a : nat) (t : Trajectory) :
  keeps st st' -> detached st a -> is_trajectory st a t ->
  is_trajectory st' a t.
Proof.
  intros K Hd (o & Ho & Hp). exists o. split.
  - destruct (K a Hd) as [_ E]. congruence.
  - now apply (points_at_keeps st).
Qed.

Lemma entries_keep (st st' : PyHeap.Store) (oc : list PyHeap.pyval)
    (completed : list Trajectory) :
  keeps st st' ->
  Forall2 (fun v t => exists a, v = PyHeap.PyRef a /\ detached st a /\
                                is_trajectory st a t) oc completed ->
  Forall2 (fun v t => exists a, v = PyHeap.PyRef a /\ detached st' a /\
                                is_trajectory st' a t) oc completed.
Proof.
  intros K H. eapply Forall2_impl; [exact H|].
  intros v t (a & -> & Hd & Ht). exists a. repeat split_and; [reflexivity| |].
  - apply (K a Hd).
  - now apply (is_trajectory_keeps st).
Qed.

Lemma lookup_new_object (h : list (list PyHeap.pyval)) (o : list PyHeap.pyval)
    (k : list (list PyHeap.pyval)) :
  (h ++ o :: k) !! length h = Some o.
Proof. now apply list_lookup_middle. Qed.

Lemma represents_lengths (st : PyHeap.Store) (completed : list Trajectory)
    (current : Trajectory) :
  represents st completed current ->
  length (PyHeap.deref (PyHeap.heap st) (PyHeap.current_ref st))
    = length current /\
  length (PyHeap.deref (PyHeap.heap st) (PyHeap.completed_ref st))
    = length completed.
Proof.
  intros (_ & (o & Ho & Hp) & (oc & Hoc & He)).
  unfold PyHeap.deref. rewrite Ho, Hoc. simpl.
  split; eapply Forall2_length; eassumption.
Qed.

Lemma represents_add_point (st : PyHeap.Store) (completed : list Trajectory)
    (current : Trajectory) (lat lng : float) :
  represents st completed current ->
  PyHeap.drawing_mode st = true ->
  PyHeap.click_mode st = true ->
  represents (PyHeap.add_trajectory_point lat lng st) completed
    (current ++ [(lat, lng)]).
Proof.
  intros (Hne & (o & Ho & Hp) & (oc & Hoc & He)) Hd Hc.
  pose proof (heap_call_keeps (CallAddPoint lat lng) st) as K. simpl in K.
  unfold PyHeap.add_trajectory_point in *. rewrite Hd, Hc in *. simpl in K |- *.
  pose proof (lookup_lt_Some _ _ _ Ho) as Lcur.
  pose proof (lookup_lt_Some _ _ _ Hoc) as Lcomp.
  split; [exact Hne|]. split.
  - exists (o ++ [PyHeap.PyRef (length (PyHeap.heap st))]). split.
    + simpl. apply lookup_list_append_eq. now rewrite lookup_app_l.
    + apply Forall2_app; [now apply (points_at_keeps st)|].
      constructor; [|constructor].
      exists (length (PyHeap.heap st)). split; [reflexivity|]. split.
      * unfold detached. simpl. rewrite length_list_append, length_app. simpl. lia.
      * simpl. rewrite lookup_list_append_ne by lia. apply lookup_new_object.
  - exists oc. split.
    + simpl. rewrite lookup_list_append_ne by congruence.
      now rewrite lookup_app_l.
    + now apply (entries_keep st).
Qed.

Lemma points_at_refs_detached (st : PyHeap.Store) (o : list PyHeap.pyval)
    (t : Trajectory) :
  points_at st o t -> forall p, In p (refs o) -> detached st p.
Proof.
  unfold points_at. induction 1 as [|v pt o t (q & -> & Hq & _) _ IH];
    intros p Hin; simpl in Hin.
  - contradiction.
  - destruct Hin as [<- | Hin]; [exact Hq | now apply IH].
Qed.

Lemma represents_finish (st : PyHeap.Store) (completed : list Trajectory)
    (current : Trajectory) (reply : StandardButton) :
  represents st completed current ->
  Nat.eqb (length current) 0 = false ->
  Nat.eqb (length current) 1 && StandardButton_eqb reply No = false ->
  represents (PyHeap.finish_current_trajectory reply st)
    (completed ++ [current]) [] /\
  last (PyHeap.deref (PyHeap.heap (PyHeap.finish_current_trajectory reply st))
          (PyHeap.completed_ref (PyHeap.finish_current_trajectory reply st)))
  = Some (PyHeap.PyRef (length (PyHeap.heap st))) /\
  frozen (PyHeap.finish_current_trajectory reply st) (length (PyHeap.heap st)) /\
  is_trajectory (PyHeap.finish_current_trajectory reply st)
    (length (PyHeap.heap st)) current /\
  length (PyHeap.heap st) <> PyHeap.current_ref st.
Proof.
  intros R E0 E1.
  destruct (represents_lengths _ _ _ R) as [Lc _].
  destruct R as (Hne & (o & Ho & Hp) & (oc & Hoc & He)).
  pose proof (heap_call_keeps (CallFinish reply) st) as K. simpl in K.
  unfold PyHeap.finish_current_trajectory in *.
  rewrite Lc, E0, E1 in *.
  pose proof (lookup_lt_Some _ _ _ Ho) as Lcur.
  pose proof (lookup_lt_Some _ _ _ Hoc) as Lcomp.
  assert (Ed : PyHeap.deref (PyHeap.heap st) (PyHeap.current_ref st) = o)
    by (unfold PyHeap.deref; now rewrite Ho).
  rewrite Ed in *.
  set (h1 := PyHeap.heap st ++ [o]) in *.
  set (h2 := PyHeap.list_append (PyHeap.completed_ref st)
               (PyHeap.PyRef (length (PyHeap.heap st))) h1) in *.
  assert (L1 : length h1 = S (length (PyHeap.heap st)))
    by (unfold h1; rewrite length_app; simpl; lia).
  assert (L2 : length h2 = S (length (PyHeap.heap st)))
    by (unfold h2; now rewrite length_list_append).
  assert (H2comp : h2 !! PyHeap.completed_ref st
                   = Some (oc ++ [PyHeap.PyRef (length (PyHeap.heap st))])).
  { unfold h2. apply lookup_list_append_eq. unfold h1.
    now rewrite lookup_app_l. }
  assert (H2copy : h2 !! length (PyHeap.heap st) = Some o).
  { unfold h2. rewrite lookup_list_append_ne by lia. apply lookup_new_object. }
  set (st' := {| PyHeap.heap := h2 ++ [[]];
                 PyHeap.completed_ref := PyHeap.completed_ref st;
                 PyHeap.current_ref := length h2;
                 PyHeap.drawing_mode := PyHeap.drawing_mode st;
                 PyHeap.click_mode := PyHeap.click_mode st |}) in *.
  assert (Dcopy : detached st' (length (PyHeap.heap st))).
  { unfold detached, st'. simpl. rewrite length_app, L2. simpl. lia. }
  assert (Pcopy : points_at st' o current) by now apply (points_at_keeps st).
  assert (Hcopy : PyHeap.heap st' !! length (PyHeap.heap st) = Some o).
  { unfold st'. simpl. rewrite lookup_app_l by lia. exact H2copy. }
  split; [|split; [|split; [|split]]].
  - split; [unfold st'; simpl; lia|]. split.
    + exists []. split; [apply lookup_new_object | constructor].
    + exists (oc ++ [PyHeap.PyRef (length (PyHeap.heap st))]). split.
      * unfold st'. simpl. rewrite lookup_app_l by lia. exact H2comp.
      * apply Forall2_app; [now apply (entries_keep st)|].
        constructor; [|constructor].
        exists (length (PyHeap.heap st)).
        split; [reflexivity|]. split; [exact Dcopy|].
        exists o. split; [exact Hcopy | exact Pcopy].
  - unfold PyHeap.deref, st'. simpl. rewrite lookup_app_l by lia.
    rewrite H2comp. simpl. apply last_snoc.
  - split; [exact Dcopy|].
    intros p Hin. unfold PyHeap.deref in Hin. rewrite Hcopy in Hin.
    simpl in Hin. now apply (points_at_refs_detached st' o current).
  - exists o. split; [exact Hcopy | exact Pcopy].
  - lia.
Qed.

Lemma represents_clear_current (st : PyHeap.Store)
    (completed : list Trajectory) (current : Trajectory) :
  represents st completed current ->
  Nat.eqb (length current) 0 = false ->
  represents (PyHeap.clear_current_trajectory st) completed [].
Proof.
  intros R E0.
  destruct (represents_lengths _ _ _ R) as [Lc _].
  destruct R as (Hne & _ & (oc & Hoc & He)).
  pose proof (heap_call_keeps CallClearCurrent st) as K. simpl in K.
  unfold PyHeap.clear_current_trajectory in *. rewrite Lc, E0 in *.
  pose proof (lookup_lt_Some _ _ _ Hoc) as Lcomp.
  split; [simpl; lia|]. split.
  - exists []. split; [apply lookup_new_object | constructor].
  - exists oc. split.
    + simpl. now rewrite lookup_app_l.
    + now apply (entries_keep st).
Qed.

Lemma represents_clear_all (st : PyHeap.Store) (completed : list Trajectory)
    (current : Trajectory) :
  represents st completed current ->
  Nat.eqb (length completed) 0 && Nat.eqb (length current) 0 = false ->
  represents (PyHeap.clear_all_trajectories Yes st) [] [].
Proof.
  intros R E0.
  destruct (represents_lengths _ _ _ R) as [Lc Lk].
  unfold PyHeap.clear_all_trajectories. rewrite Lc, Lk, E0. simpl.
  split; [simpl; lia|]. split.
  - exists []. split; [|constructor]. simpl.
    change (PyHeap.heap st ++ [[]; []]) with (PyHeap.heap st ++ [[]] ++ [[]]).
    rewrite app_assoc.
    replace (S (length (PyHeap.heap st)))
      with (length (PyHeap.heap st ++ [[]]))
      by (rewrite length_app; simpl; lia).
    apply lookup_new_object.
  - exists []. split; [apply lookup_new_object | constructor].
Qed.

Lemma agrees_is_agrees_view (st : PyHeap.Store) (s : App) :
  agrees st s <-> agrees_view st (view s).
Proof. reflexivity. Qed.

Lemma agrees_add_trajectory_point (lat lng : float) (st : PyHeap.Store) (s : App) :
  agrees st s ->
  agrees (PyHeap.add_trajectory_point lat lng st) (add_trajectory_point lat lng s).
Proof.
  intros (R & Hd & Hc). apply agrees_is_agrees_view.
  rewrite view_add_trajectory_point.
  destruct (negb (is_drawing_mode s) || negb (click_mode_enabled s)) eqn:G.
  - unfold PyHeap.add_trajectory_point. rewrite Hd, Hc, G. exact (conj R (conj Hd Hc)).
  - apply orb_false_elim in G as [Gd Gc].
    apply negb_false_iff in Gd, Gc. rewrite Gd in Hd. rewrite Gc in Hc.
    split; [now apply represents_add_point|].
    unfold PyHeap.add_trajectory_point. rewrite Hd, Hc. simpl.
    now rewrite Gd, Gc.
Qed.

(** Both levels take the same branch of every method and stay in agreement:
    the value-level store is what the lists of Python hold. *)
Lemma heap_call_agrees (c : Call) (st : PyHeap.Store) (s : App) :
  agrees st s -> agrees (heap_call c st) (app_call c s).
Proof.
  intros A.
  destruct c as [lat lng | lat lng | reply | | reply | state]; simpl.
  - now apply agrees_add_trajectory_point.
  - destruct A as (R & Hd & Hc).
    unfold PyHeap.on_map_click, on_map_click. rewrite Hc.
    destruct (click_mode_enabled s) eqn:E.
    + apply agrees_add_trajectory_point.
      split; [exact R|]. split; [exact Hd | congruence].
    + split; [exact R|]. split; [exact Hd | congruence].
  - destruct A as (R & Hd & Hc). apply agrees_is_agrees_view.
    rewrite view_finish_current_trajectory.
    destruct (represents_lengths _ _ _ R) as [Lc _].
    destruct (Nat.eqb (length (current_trajectory s)) 0) eqn:E0.
    + unfold PyHeap.finish_current_trajectory. rewrite Lc, E0.
      exact (conj R (conj Hd Hc)).
    + destruct (Nat.eqb (length (current_trajectory s)) 1
                && StandardButton_eqb reply No) eqn:E1.
      * unfold PyHeap.finish_current_trajectory. rewrite Lc, E0, E1.
        exact (conj R (conj Hd Hc)).
      * split; [now apply (represents_finish st _ _ reply R)|].
        unfold PyHeap.finish_current_trajectory. rewrite Lc, E0, E1.
        now split.
  - destruct A as (R & Hd & Hc). apply agrees_is_agrees_view.
    rewrite view_clear_current_trajectory.
    destruct (represents_lengths _ _ _ R) as [Lc _].
    destruct (Nat.eqb (length (current_trajectory s)) 0) eqn:E0.
    + unfold PyHeap.clear_current_trajectory. rewrite Lc, E0.
      exact (conj R (conj Hd Hc)).
    + split; [now apply (represents_clear_current st _ _ R)|].
      unfold PyHeap.clear_current_trajectory. rewrite Lc, E0. now split.
  - destruct A as (R & Hd & Hc). apply agrees_is_agrees_view.
    rewrite view_clear_all_trajectories.
    destruct (represents_lengths _ _ _ R) as [Lc Lk].
    destruct (Nat.eqb (length (completed_trajectories s)) 0
              && Nat.eqb (length (current_trajectory s)) 0) eqn:E0.
    + unfold PyHeap.clear_all_trajectories. rewrite Lc, Lk, E0.
      exact (conj R (conj Hd Hc)).
    + destruct reply; simpl.
      * split; [now apply (represents_clear_all st _ _ R)|].
        unfold PyHeap.clear_all_trajectories. rewrite Lc, Lk, E0. now split.
      * unfold PyHeap.clear_all_trajectories. rewrite Lc, Lk, E0.
        exact (conj R (conj Hd Hc)).
  - destruct A as (R & Hd & Hc). apply agrees_is_agrees_view.
    rewrite view_toggle_click_mode. split; [exact R | now split].
Qed.

Lemma initial_agrees : agrees PyHeap.initial_store initial_app.
Proof.
  split; [|now split]. split; [discriminate|]. split.
  - exists []. split; [reflexivity | constructor].
  - exists []. split; [reflexivity | constructor].
Qed.

Lemma heap_calls_agree (cs : list Call) (st : PyHeap.Store) (s : App) :
  agrees st s -> agrees (heap_calls cs st) (app_calls cs s).
Proof.
  revert st s. induction cs as [|c cs IH]; intros st s A; simpl; [exact A|].
  apply IH. now apply heap_call_agrees.
Qed.

(** What is represented is what the reading functions return. *)
Lemma is_trajectory_read (st : PyHeap.Store) (a : nat) (t : Trajectory) :
  is_trajectory st a t -> PyHeap.read_trajectory (PyHeap.heap st) a = Some t.
Proof.
  intros (o & Ho & Hp). unfold PyHeap.read_trajectory. rewrite Ho.
  apply mapM_Some_2. eapply Forall2_impl; [exact Hp|].
  intros v [x y] (p & -> & _ & Hl). simpl in *.
  unfold PyHeap.read_point. now rewrite Hl.
Qed.

Lemma represents_read (st : PyHeap.Store) (completed : list Trajectory)
    (current : Trajectory) :
  represents st completed current ->
  PyHeap.read_completed st = Some completed /\
  PyHeap.read_current st = Some current.
Proof.
  intros (_ & Hcur & (oc & Hoc & He)). split.
  - unfold PyHeap.read_completed. rewrite Hoc.
    apply mapM_Some_2. eapply Forall2_impl; [exact He|].
    intros v t (a & -> & _ & Ht). simpl. now apply (is_trajectory_read st).
  - now apply is_trajectory_read.
Qed.

(** ** Finishing archives a copy *)

Lemma store_after_agrees (cs : list Call) :
  agrees (store_after cs) (state_after cs).
Proof. apply heap_calls_agree, initial_agrees. Qed.

(** C3 as stated fails: a current trajectory of one point is not archived
    when the operator answers No to the prompt; nothing is appended and the
    point stays current. *)
Lemma finish_declined_archives_nothing :
  current_trajectory one_point_app = [(40.0%float, (-74.0)%float)] /\
  completed_trajectories one_point_app = [] /\
  completed_trajectories (finish_current_trajectory No one_point_app) = [] /\
  current_trajectory (finish_current_trajectory No one_point_app)
  = [(40.0%float, (-74.0)%float)].
Proof. repeat split_and; reflexivity. Qed.

(** C3, as the code has it: in any state the application reaches from
    start-up, if the current trajectory is not empty and the operator does
    not decline the single-point prompt, finishing appends the current
    trajectory, points in order, to the completed ones (one more entry) and
    leaves the current trajectory empty.  At the level of Python's objects
    the archived entry is a new list, not the list that was current, and no
    later sequence of calls changes what it holds: it is never written
    again, nor are the point lists it refers to. *)
Theorem finish_archives_a_copy (cs : list Call) (reply : StandardButton) :
  current_trajectory (state_after cs) <> [] ->
  (length (current_trajectory (state_after cs)) = 1 -> reply = Yes) ->
  completed_trajectories (finish_current_trajectory reply (state_after cs))
    = completed_trajectories (state_after cs)
      ++ [current_trajectory (state_after cs)] /\
  length (completed_trajectories
            (finish_current_trajectory reply (state_after cs)))
    = S (length (completed_trajectories (state_after cs))) /\
  current_trajectory (finish_current_trajectory reply (state_after cs)) = [] /\
  PyHeap.read_completed
      (PyHeap.finish_current_trajectory reply (store_after cs))
    = Some (completed_trajectories (state_after cs)
            ++ [current_trajectory (state_after cs)]) /\
  PyHeap.read_current
      (PyHeap.finish_current_trajectory reply (store_after cs))
    = Some [] /\
  exists a : nat,
    last (PyHeap.deref
            (PyHeap.heap
               (PyHeap.finish_current_trajectory reply (store_after cs)))
            (PyHeap.completed_ref
               (PyHeap.finish_current_trajectory reply (store_after cs))))
      = Some (PyHeap.PyRef a) /\
    a <> PyHeap.current_ref (store_after cs) /\
    forall later : list Call,
      a <> PyHeap.current_ref
             (heap_calls later
                (PyHeap.finish_current_trajectory reply (store_after cs))) /\
      PyHeap.heap
        (heap_calls later
           (PyHeap.finish_current_trajectory reply (store_after cs))) !! a
      = PyHeap.heap
          (PyHeap.finish_current_trajectory reply (store_after cs)) !! a /\
      PyHeap.read_trajectory
        (PyHeap.heap
           (heap_calls later
              (PyHeap.finish_current_trajectory reply (store_after cs)))) a
      = Some (current_trajectory (state_after cs)).
Proof.
  intros Hne Hreply.
  destruct (store_after_agrees cs) as (R & _ & _).
  assert (E0 : Nat.eqb (length (current_trajectory (state_after cs))) 0 = false)
    by now apply length_zero_eqb_false.
  assert (E1 : Nat.eqb (length (current_trajectory (state_after cs))) 1
               && StandardButton_eqb reply No = false).
  { destruct (Nat.eqb (length (current_trajectory (state_after cs))) 1) eqn:E;
      [|reflexivity].
    apply Nat.eqb_eq in E. now rewrite (Hreply E). }
  pose proof (view_finish_current_trajectory reply (state_after cs)) as V.
  rewrite E0, E1 in V. unfold view in V.
  injection V as Vc Vk _ _.
  destruct (represents_finish _ _ _ reply R E0 E1) as (R' & Hlast & Hfr & Ht & Hnew).
  destruct (represents_read _ _ _ R') as [Rc Rk].
  repeat split_and.
  - exact Vc.
  - rewrite Vc, length_app. simpl. lia.
  - exact Vk.
  - exact Rc.
  - exact Rk.
  - exists (length (PyHeap.heap (store_after cs))).
    split; [exact Hlast|]. split; [exact Hnew|].
    intros later.
    destruct (heap_calls_frozen later _ _ Hfr) as ((Hd & _) & El & Er).
    split; [apply Hd|]. split; [exact El|].
    rewrite Er. now apply is_trajectory_read.
Qed.

(** ** Instances and scenarios *)

(** Scenario 1 meets the conditions of [finish_archives_a_copy]: three
    points, so no prompt is shown. *)
Lemma finish_archives_a_copy_witness :
  current_trajectory (state_after three_clicks) <> [] /\
  completed_trajectories
    (finish_current_trajectory Yes (state_after three_clicks))
  = completed_trajectories (state_after three_clicks)
    ++ [current_trajectory (state_after three_clicks)].
Proof.
  assert (H : current_trajectory (state_after three_clicks) <> [])
    by discriminate.
  split; [exact H|].
  exact (proj1 (finish_archives_a_copy three_clicks Yes H (fun _ => eq_refl))).
Defined.

(** The start-up state has no current point. *)
Lemma empty_precondition_only_informs_witness :
  current_trajectory initial_app = [] /\
  only_reports no_trajectory_message initial_app
    (finish_current_trajectory Yes initial_app).
Proof.
  split; [reflexivity|].
  exact (proj1 (empty_precondition_only_informs Yes initial_app eq_refl)).
Defined.

(** A valid click at start-up. *)
Lemma add_point_appends_input_witness :
  between (-90)%float 40.0%float 90%float = true /\
  between (-180)%float (-74.0)%float 180%float = true /\
  is_drawing_mode initial_app = true /\
  click_mode_enabled initial_app = true /\
  current_trajectory
    (add_trajectory_point 40.0%float (-74.0)%float initial_app)
  = current_trajectory initial_app ++ [(40.0%float, (-74.0)%float)].
Proof.
  do 4 (split; [reflexivity|]).
  exact (proj1 (add_point_appends_input 40.0%float (-74.0)%float initial_app
                  eq_refl eq_refl eq_refl eq_refl)).
Defined.

(** C6 as stated fails: the session holds a point, the operator answers No,
    and clear-all leaves the point where it is. *)
Lemma clear_all_declined_keeps_points :
  current_trajectory one_point_app <> [] /\
  current_trajectory (clear_all_trajectories No one_point_app)
  = current_trajectory one_point_app.
Proof. split; [discriminate | reflexivity]. Qed.

(** The same session, cleared with the answer Yes. *)
Lemma clear_all_asks_then_empties_witness :
  (completed_trajectories one_point_app <> [] \/
   current_trajectory one_point_app <> []) /\
  (Yes = Yes ->
   completed_trajectories (clear_all_trajectories Yes one_point_app) = [] /\
   current_trajectory (clear_all_trajectories Yes one_point_app) = [] /\
   trajectory_count_label (clear_all_trajectories Yes one_point_app)
     = [Lit "Trajectories: "; IntD 0; Lit " | Current Points: "; IntD 0] /\
   info_label (clear_all_trajectories Yes one_point_app)
     = [Lit "🗑️ All trajectories cleared. Click on the map to start drawing."] /\
   children (current_map (clear_all_trajectories Yes one_point_app)) = []).
Proof.
  assert (H : completed_trajectories one_point_app <> [] \/
              current_trajectory one_point_app <> [])
    by (right; discriminate).
  split; [exact H|].
  exact (proj1 (proj2 (clear_all_asks_then_empties Yes one_point_app H))).
Defined.

(** A session with exactly one current point. *)
Lemma declined_prompt_changes_nothing_witness :
  length (current_trajectory one_point_app) = 1 /\
  only_reports single_point_prompt one_point_app
    (finish_current_trajectory No one_point_app).
Proof.
  split; [reflexivity|].
  exact (proj1 (declined_prompt_changes_nothing one_point_app) eq_refl).
Defined.

(** End-to-end scenario 1: three points, then finish: the current trajectory
    is empty, there is one completed trajectory of three points, and the
    scene starts at (40.0, -74.0) and ends at (40.2, -74.2). *)
Example scenario_three_points_finished :
  current_trajectory (state_after (three_clicks ++ [CallFinish Yes])) = [] /\
  completed_trajectories (state_after (three_clicks ++ [CallFinish Yes]))
  = [[(40.0%float, (-74.0)%float); (40.1%float, (-74.1)%float);
      (40.2%float, (-74.2)%float)]] /\
  children (current_map (state_after (three_clicks ++ [CallFinish Yes])))
  = [start_marker 0 (40.0%float, (-74.0)%float);
     interior_marker "red" 1 (40.1%float, (-74.1)%float);
     end_marker 0 (40.2%float, (-74.2)%float);
     solid_line "red" 0
       [(40.0%float, (-74.0)%float); (40.1%float, (-74.1)%float);
        (40.2%float, (-74.2)%float)]] /\
  PyHeap.read_completed (store_after (three_clicks ++ [CallFinish Yes]))
  = Some [[(40.0%float, (-74.0)%float); (40.1%float, (-74.1)%float);
           (40.2%float, (-74.2)%float)]].
Proof. repeat split_and; reflexivity. Qed.

(** End-to-end scenario 2: typing latitude 91.0 is refused with the latitude
    message and the trajectory keeps its points. *)
Example scenario_latitude_91_refused :
  add_manual_point ascii_strip example_float
    (set_inputs "91.0" "0.0" one_point_app)
  = invalid_coordinates "Latitude must be between -90 and 90 degrees"
      (set_inputs "91.0" "0.0" one_point_app).
Proof. reflexivity. Qed.

(** A latitude that is not a number is refused as well. *)
Example scenario_nan_refused :
  add_manual_point ascii_strip example_float
    (set_inputs " nan " "0.0" one_point_app)
  = invalid_coordinates "Latitude must be between -90 and 90 degrees"
      (set_inputs " nan " "0.0" one_point_app).
Proof. reflexivity. Qed.

(** * Further properties: every event, every run *)

(** ** Published maps and printed texts *)

Lemma published_app (es fs : list Effect) :
  published (es ++ fs) = published es ++ published fs.
Proof. unfold published. apply flat_map_app. Qed.

Lemma published_display (es : list Effect) (m : Map) :
  published (es ++ [DisplayMap m]) = published es ++ [m].
Proof. now rewrite published_app. Qed.

Lemma published_dialog (es : list Effect) (e : Effect) :
  (forall m, e <> DisplayMap m) -> published (es ++ [e]) = published es.
Proof.
  intros H. rewrite published_app. destruct e; simpl;
    try apply app_nil_r. now destruct (H m).
Qed.

Lemma append_empty_r (x : string) : String.append x EmptyString = x.
Proof. induction x as [|c x IH]; simpl; [reflexivity | now rewrite IH]. Qed.

Lemma render_count_fragments (n m : nat) :
  render (count_fragments n m)
  = Some (String.append "Trajectories: "
            (String.append (render_int n)
               (String.append " | Current Points: " (render_int m)))).
Proof.
  unfold count_fragments. cbn [render option_map].
  now rewrite append_empty_r.
Qed.

(** The scene of a state is armed: one click script, and attribution
    exactly for the two custom tile layers. *)
Lemma scene_of_armed (s : App) : armed (scene_of s).
Proof.
  split; [reflexivity|]. unfold scene_of, get_map_tiles. simpl.
  destruct (String.eqb (map_style_combo s) "Satellite View"); simpl;
    [split; discriminate|].
  destruct (String.eqb (map_style_combo s) "Terrain"); simpl;
    [split; discriminate|].
  split; reflexivity.
Qed.

(** What a refresh does, field by field. *)
Lemma refresh_map_fields (s : App) :
  completed_trajectories (refresh_map s) = completed_trajectories s /\
  current_trajectory (refresh_map s) = current_trajectory s /\
  is_drawing_mode (refresh_map s) = is_drawing_mode s /\
  click_mode_enabled (refresh_map s) = click_mode_enabled s /\
  trajectory_count_label (refresh_map s) = trajectory_count_label s /\
  click_status_label (refresh_map s) = click_status_label s /\
  click_status_style (refresh_map s) = click_status_style s /\
  map_style_combo (refresh_map s) = map_style_combo s /\
  current_map (refresh_map s) = scene_of (refresh_map s) /\
  published (effects (refresh_map s))
  = published (effects s) ++ [current_map (refresh_map s)].
Proof.
  rewrite refresh_map_scene. simpl.
  repeat split_and; try reflexivity. apply published_display.
Qed.

(** [refreshed] for a state that is the refresh of [s1]. *)
Lemma refreshed_by_refresh (ch : Change) (s s1 : App) :
  (completed_trajectories s1, current_trajectory s1)
    = changed_store ch (completed_trajectories s) (current_trajectory s) ->
  is_drawing_mode s1 = is_drawing_mode s ->
  click_mode_enabled s1 = click_mode_enabled s ->
  click_status_label s1 = click_status_label s ->
  click_status_style s1 = click_status_style s ->
  trajectory_count_label s1
    = match ch with
      | Restyled _ => trajectory_count_label s
      | _ => count_fragments (length (completed_trajectories s1))
               (length (current_trajectory s1))
      end ->
  map_style_combo s1
    = match ch with
      | Restyled style => style
      | _ => map_style_combo s
      end ->
  published (effects s1) = published (effects s) ->
  refreshed ch s (refresh_map s1).
Proof.
  intros Hst Hd Hc Hl Hs Hn Hm Hp.
  destruct (refresh_map_fields s1)
    as (Rc & Rk & Rd & Rf & Rn & Rl & Rs & Rm & Rmap & Rp).
  unfold refreshed. rewrite Rc, Rk, Rd, Rf, Rn, Rl, Rs, Rm, Rp, Hp.
  repeat split_and; first [assumption | reflexivity].
Qed.

(** ** What each slot does *)

Lemma quiet_same (s : App) : quiet s s.
Proof. repeat split. Qed.

Lemma quiet_dialog (e : Effect) (s : App) :
  (forall m, e <> DisplayMap m) -> quiet s (perform e s).
Proof.
  intros H. unfold quiet. simpl. rewrite (published_dialog _ e H).
  repeat split.
Qed.

Lemma outcome_add_trajectory_point (lat lng : float) (s : App) :
  add_trajectory_point lat lng s = s \/
  refreshed (Added (lat, lng)) s (add_trajectory_point lat lng s).
Proof.
  destruct (is_drawing_mode s) eqn:Hd;
    [|left; apply add_trajectory_point_disabled; auto].
  destruct (click_mode_enabled s) eqn:Hc;
    [|left; apply add_trajectory_point_disabled; auto].
  right. rewrite (add_trajectory_point_enabled lat lng s Hd Hc).
  apply refreshed_by_refresh; simpl; try reflexivity; congruence.
Qed.

Lemma outcome_finish (reply : StandardButton) (s : App) :
  quiet s (finish_current_trajectory reply s) \/
  (current_trajectory s <> [] /\
   refreshed Finished s (finish_current_trajectory reply s)).
Proof.
  destruct (current_trajectory s) as [|p t] eqn:Hk.
  - left. unfold finish_current_trajectory. rewrite Hk. simpl.
    apply quiet_dialog. discriminate.
  - destruct (Nat.eqb (length (current_trajectory s)) 1
              && StandardButton_eqb reply No) eqn:E1.
    + left. apply andb_prop in E1 as [E1 E2]. apply Nat.eqb_eq in E1.
      destruct reply; [discriminate|].
      rewrite (finish_declined s E1). apply quiet_dialog. discriminate.
    + right. split; [discriminate|].
      rewrite finish_saved.
      * apply refreshed_by_refresh; simpl; try reflexivity;
          unfold after_prompt;
          destruct (Nat.eqb (length (current_trajectory s)) 1); simpl;
          try reflexivity.
        apply published_dialog. discriminate.
      * rewrite Hk. discriminate.
      * intros H. rewrite H in E1. now destruct reply.
Qed.

Lemma outcome_clear_current (s : App) :
  quiet s (clear_current_trajectory s) \/
  refreshed ClearedCurrent s (clear_current_trajectory s).
Proof.
  destruct (current_trajectory s) as [|p t] eqn:Hk.
  - left. unfold clear_current_trajectory. rewrite Hk. simpl.
    apply quiet_dialog. discriminate.
  - right. rewrite clear_current_nonempty by (rewrite Hk; discriminate).
    apply refreshed_by_refresh; reflexivity.
Qed.

Lemma outcome_clear_all (reply : StandardButton) (s : App) :
  quiet s (clear_all_trajectories reply s) \/
  (reply = Yes /\ refreshed ClearedAll s (clear_all_trajectories reply s)).
Proof.
  destruct (Nat.eqb (length (completed_trajectories s)) 0
            && Nat.eqb (length (current_trajectory s)) 0) eqn:E.
  - left. unfold clear_all_trajectories. rewrite E.
    apply quiet_dialog. discriminate.
  - assert (H : completed_trajectories s <> [] \/ current_trajectory s <> []).
    { destruct (completed_trajectories s); [|left; discriminate].
      destruct (current_trajectory s); [discriminate | right; discriminate]. }
    destruct reply.
    + right. split; [reflexivity|]. rewrite (clear_all_confirmed s H).
      apply refreshed_by_refresh; simpl; try reflexivity.
      apply published_dialog. discriminate.
    + left. rewrite (clear_all_declined s H). apply quiet_dialog. discriminate.
Qed.

Lemma outcome_toggle (state : Z) (s : App) :
  toggled s (toggle_click_mode state s).
Proof.
  unfold toggle_click_mode, toggled. simpl.
  destruct (Z.eqb state Qt_Checked); simpl; repeat split.
Qed.

Lemma outcome_style (style : string) (s : App) :
  refreshed (Restyled style) s (refresh_map (set_map_style_combo style s)).
Proof. apply refreshed_by_refresh; reflexivity. Qed.

(** The two steps after a stored manual entry change neither the store nor
    the map. *)
Lemma refreshed_then_cleared (ch : Change) (s x : App) (a b : string) :
  refreshed ch s x ->
  refreshed ch s (perform SetFocusLat (set_inputs a b x)).
Proof.
  unfold refreshed. simpl. intros (H1 & H2 & H3 & H4 & H5 & H6 & H7 & H8 & H9).
  rewrite published_dialog by discriminate.
  repeat split_and; assumption.
Qed.

Section SlotOutcomes.

Variable strip : string -> string.
Variable float_of_str : string -> string + float.
Variable geocode : string -> GeocodeResult.

(** Manual entry either shows one warning and stops, or passes both range
    tests and hands the two numbers to [add_trajectory_point], then clears
    the fields and moves the focus. *)
Lemma manual_entry_cases (s : App) :
  (exists title text,
     add_manual_point strip float_of_str s
     = perform (MsgWarning title text) s) \/
  (exists lat lng,
     float_of_str (strip (lat_input s)) = inr lat /\
     float_of_str (strip (lon_input s)) = inr lng /\
     valid_point (lat, lng) = true /\
     add_manual_point strip float_of_str s
     = perform SetFocusLat (set_inputs "" "" (add_trajectory_point lat lng s))).
Proof.
  unfold add_manual_point, invalid_coordinates, valid_point.
  destruct (String.eqb _ _ || String.eqb _ _); [left; eauto|].
  destruct (float_of_str (strip (lat_input s))) as [m|lat]; [left; eauto|].
  destruct (float_of_str (strip (lon_input s))) as [m|lng]; [left; eauto|].
  destruct (between _ lat _) eqn:Hlat; simpl; [|left; eauto].
  destruct (between _ lng _) eqn:Hlng; simpl; [|left; eauto].
  right. exists lat, lng. simpl. rewrite Hlat, Hlng. repeat split.
Qed.

Lemma outcome_manual (s : App) :
  quiet s (add_manual_point strip float_of_str s) \/
  exists p, valid_point p = true /\
            refreshed (Added p) s (add_manual_point strip float_of_str s).
Proof.
  destruct (manual_entry_cases s)
    as [(title & text & ->) | (lat & lng & _ & _ & Hv & ->)].
  - left. apply quiet_dialog. discriminate.
  - destruct (outcome_add_trajectory_point lat lng s) as [-> | R].
    + left. unfold quiet. simpl. rewrite published_dialog by discriminate.
      repeat split.
    + right. exists (lat, lng). split; [exact Hv|].
      now apply refreshed_then_cleared.
Qed.

(** A search that finds its place, as one state. *)
Lemma search_place_found (place : string) (s : App)
    (latitude longitude : float) (address : string) :
  String.eqb (strip place) "" = false ->
  geocode (strip place) = Found latitude longitude address ->
  search_place strip geocode place s
  = set_info_label [Lit "📍 Found: "; Lit address]
      (perform
         (DisplayMap
            (search_map s
               (search_marker (strip place) latitude longitude address)
               (latitude, longitude)))
         (set_current_map
            (search_map s
               (search_marker (strip place) latitude longitude address)
               (latitude, longitude))
            (set_info_label [Lit "🔍 Searching..."] s))).
Proof.
  intros Hne Hg. unfold search_place. rewrite Hne, Hg.
  unfold save_and_display_map, add_map_click_handler.
  rewrite add_all_trajectories_scene. unfold create_map_at_location.
  change (get_map_tiles (set_info_label [Lit "🔍 Searching..."] s))
    with (get_map_tiles s).
  unfold search_map, scene_of.
  destruct (truthy (snd (get_map_tiles s))); reflexivity.
Qed.

Lemma outcome_search (place : string) (s : App) :
  quiet s (search_place strip geocode place s) \/
  searched s (search_place strip geocode place s).
Proof.
  destruct (String.eqb (strip place) "") eqn:Hne.
  - left. unfold search_place. rewrite Hne. apply quiet_dialog. discriminate.
  - destruct (geocode (strip place)) as [latitude longitude address | | msg]
      eqn:Hg.
    + right. rewrite (search_place_found place s _ _ _ Hne Hg).
      unfold searched. simpl. rewrite published_display.
      repeat split_and; try reflexivity. eexists. reflexivity.
    + left. unfold search_place. rewrite Hne, Hg. repeat split.
    + left. unfold search_place. rewrite Hne, Hg. repeat split.
Qed.

(** Every event does one of four things. *)
Lemma handle_outcome (e : Event) (s : App) :
  quiet s (handle strip float_of_str geocode e s) \/
  toggled s (handle strip float_of_str geocode e s) \/
  searched s (handle strip float_of_str geocode e s) \/
  exists ch, refreshed ch s (handle strip float_of_str geocode e s) /\
             allowed e s ch.
Proof.
  destruct e as [lat lng | lat lon | | reply | | reply | state | style | place];
    simpl.
  - unfold on_map_click. destruct (click_mode_enabled s);
      [|left; apply quiet_same].
    destruct (outcome_add_trajectory_point lat lng s) as [-> | R];
      [left; apply quiet_same|].
    right; right; right. exists (Added (lat, lng)). split; [exact R | now left].
  - left. repeat split.
  - destruct (outcome_manual s) as [Q | (p & Hv & R)]; [now left|].
    right; right; right. exists (Added p). split; [exact R | now right].
  - destruct (outcome_finish reply s) as [Q | [Hne R]]; [now left|].
    right; right; right. exists Finished. split; [exact R | exact Hne].
  - destruct (outcome_clear_current s) as [Q | R]; [now left|].
    right; right; right. exists ClearedCurrent. split; [exact R | exact I].
  - destruct (outcome_clear_all reply s) as [Q | [-> R]]; [now left|].
    right; right; right. exists ClearedAll. split; [exact R | reflexivity].
  - right; left. apply outcome_toggle.
  - right; right; right. exists (Restyled style).
    split; [apply outcome_style | exact I].
  - destruct (outcome_search place s) as [Q | R]; [now left | now right; right; left].
Qed.

End SlotOutcomes.

(** ** The state every run keeps *)

Lemma scene_of_layer (s s' : App) :
  map_style_combo s' = map_style_combo s ->
  tiles (scene_of s') = tiles (scene_of s) /\
  attr (scene_of s') = attr (scene_of s).
Proof.
  intros H. unfold scene_of, get_map_tiles. simpl. now rewrite H.
Qed.

Lemma view_fields (s s' : App) :
  view s' = view s ->
  completed_trajectories s' = completed_trajectories s /\
  current_trajectory s' = current_trajectory s /\
  is_drawing_mode s' = is_drawing_mode s /\
  click_mode_enabled s' = click_mode_enabled s.
Proof. unfold view. intros H. injection H as -> -> -> ->. repeat split. Qed.

Lemma consistent_quiet (s s' : App) :
  quiet s s' -> consistent s -> consistent s'.
Proof.
  intros (V & Hn & Hl & Hs & Hm & Hmap & Hp)
         (I1 & I2 & I3 & I4 & I5 & I6 & I7 & I8 & I9 & I10).
  destruct (view_fields s s' V) as (Ec & Ek & Ed & Ef).
  destruct (scene_of_layer s s' Hm) as [Et Ea].
  unfold consistent.
  rewrite Hn, Hl, Hs, Hmap, Hp, Ec, Ek, Ed, Ef, Et, Ea.
  repeat split_and; assumption.
Qed.

Lemma consistent_toggled (s s' : App) :
  toggled s s' -> consistent s -> consistent s'.
Proof.
  intros (Ec & Ek & Ed & Hl & Hs & Hn & Hm & Hmap & Hp)
         (I1 & I2 & I3 & I4 & I5 & I6 & I7 & I8 & I9 & I10).
  destruct (scene_of_layer s s' Hm) as [Et Ea].
  unfold consistent.
  rewrite Hn, Hmap, Hp, Ec, Ek, Ed, Et, Ea.
  repeat split_and; assumption.
Qed.

Lemma consistent_searched (s s' : App) :
  searched s s' -> consistent s -> consistent s'.
Proof.
  intros (V & Hn & Hl & Hs & Hm & Hch & Hz & Ht & Ha & Hh & Hp)
         (I1 & I2 & I3 & I4 & I5 & I6 & I7 & I8 & I9 & I10).
  destruct (view_fields s s' V) as (Ec & Ek & Ed & Ef).
  unfold consistent.
  rewrite Hn, Hl, Hs, Hp, Ed, Ef.
  repeat split_and; try assumption.
  - now rewrite Ec, Ek.
  - apply last_snoc.
  - now right.
  - apply Forall_app. split; [exact I8|].
    constructor; [|constructor]. split; [exact Hh|].
    rewrite Ht, Ha. apply (scene_of_armed s').
  - now rewrite Ec.
Qed.

Lemma consistent_refreshed (e : Event) (ch : Change) (s s' : App) :
  refreshed ch s s' -> allowed e s ch -> consistent s -> consistent s'.
Proof.
  intros (Hst & Hd & Hf & Hl & Hs & Hn & Hm & Hmap & Hp) Hal
         (I1 & I2 & I3 & I4 & I5 & I6 & I7 & I8 & I9 & I10).
  unfold consistent. rewrite Hl, Hs, Hp, Hd, Hf.
  repeat split_and; try assumption.
  - rewrite Hn. destruct ch; try reflexivity.
    simpl in Hst. injection Hst as Hc Hk. rewrite Hc, Hk. exact I1.
  - apply last_snoc.
  - left. now rewrite Hmap.
  - now rewrite Hmap.
  - now rewrite Hmap.
  - apply Forall_app. split; [exact I8|].
    constructor; [|constructor]. rewrite Hmap. apply scene_of_armed.
  - destruct ch; simpl in Hst; injection Hst as Hc _; rewrite Hc;
      try assumption.
    + apply Forall_app. split; [exact I9|].
      constructor; [exact Hal | constructor].
    + constructor.
Qed.

Lemma initial_consistent : consistent initial_app.
Proof.
  unfold consistent. simpl.
  repeat split_and; try reflexivity.
  - now left.
  - constructor; [|constructor].
    split; [reflexivity | split; intros _; reflexivity].
  - constructor.
Qed.

Section Reachable.

Variable strip : string -> string.
Variable float_of_str : string -> string + float.
Variable geocode : string -> GeocodeResult.

Lemma handle_consistent (e : Event) (s : App) :
  consistent s -> consistent (handle strip float_of_str geocode e s).
Proof.
  intros I.
  destruct (handle_outcome strip float_of_str geocode e s)
    as [Q | [T | [S | (ch & R & A)]]].
  - now apply (consistent_quiet s).
  - now apply (consistent_toggled s).
  - now apply (consistent_searched s).
  - now apply (consistent_refreshed e ch s).
Qed.

Lemma run_consistent (es : list Event) (s : App) :
  consistent s -> consistent (run strip float_of_str geocode es s).
Proof.
  revert s. induction es as [|e es IH]; intros s I; simpl; [exact I|].
  apply IH. now apply handle_consistent.
Qed.

End Reachable.

(** ** Properties of every run *)

Section RunProperties.

Variable strip : string -> string.
Variable float_of_str : string -> string + float.
Variable geocode : string -> GeocodeResult.

(** X1: after any sequence of events from start-up the counter label reads
    Trajectories: n | Current Points: m, with n the number of completed
    trajectories and m the number of current points at that moment. *)
Theorem count_label_shows_counts (es : list Event) :
  render (trajectory_count_label
            (run strip float_of_str geocode es initial_app))
  = Some (String.append "Trajectories: "
            (String.append
               (render_int
                  (length (completed_trajectories
                             (run strip float_of_str geocode es initial_app))))
               (String.append " | Current Points: "
                  (render_int
                     (length (current_trajectory
                                (run strip float_of_str geocode es
                                   initial_app))))))).
Proof.
  destruct (run_consistent strip float_of_str geocode es initial_app
              initial_consistent) as (I1 & _).
  rewrite I1. apply render_count_fragments.
Qed.

(** X2: after any sequence of events the click-mode label and its color
    say ENABLED in green exactly when click capture is on, DISABLED in red
    otherwise. *)
Theorem click_label_shows_flag (es : list Event) :
  click_status_label (run strip float_of_str geocode es initial_app)
  = (if click_mode_enabled (run strip float_of_str geocode es initial_app)
     then [Lit "🟢 Click Mode: ENABLED"]
     else [Lit "🔴 Click Mode: DISABLED"]) /\
  click_status_style (run strip float_of_str geocode es initial_app)
  = (if click_mode_enabled (run strip float_of_str geocode es initial_app)
     then "color: green; font-weight: bold;"
     else "color: red; font-weight: bold;").
Proof.
  destruct (run_consistent strip float_of_str geocode es initial_app
              initial_consistent) as (_ & I2 & I3 & _).
  split; [exact I2 | exact I3].
Qed.


(** X4: every map ever published, from start-up on, carries the click
    script exactly once, and has an attribution exactly when its tiles are
    not the built-in street map. *)
Theorem every_published_map_is_armed (es : list Event) :
  Forall (fun m => html m = [click_script] /\
                   (attr m = None <-> tiles m = "OpenStreetMap"))
         (published (effects (run strip float_of_str geocode es initial_app))).
Proof.
  destruct (run_consistent strip float_of_str geocode es initial_app
              initial_consistent) as (_ & _ & _ & _ & _ & _ & _ & I8 & _).
  exact I8.
Qed.

(** X5: no completed trajectory is ever empty. *)
Theorem completed_are_never_empty (es : list Event) :
  Forall (fun t => t <> [])
    (completed_trajectories (run strip float_of_str geocode es initial_app)).
Proof.
  destruct (run_consistent strip float_of_str geocode es initial_app
              initial_consistent) as (_ & _ & _ & _ & _ & _ & _ & _ & I9 & _).
  exact I9.
Qed.

Lemma handle_in_range (e : Event) (s : App) :
  is_map_click e = false ->
  all_in_range s -> all_in_range (handle strip float_of_str geocode e s).
Proof.
  intros Hclick [Hk Hc].
  destruct (handle_outcome strip float_of_str geocode e s)
    as [Q | [T | [S | (ch & R & A)]]]; unfold all_in_range.
  - destruct Q as (V & _). destruct (view_fields _ _ V) as (-> & -> & _).
    now split.
  - destruct T as (-> & -> & _). now split.
  - destruct S as (V & _). destruct (view_fields _ _ V) as (-> & -> & _).
    now split.
  - destruct R as (Hst & _).
    destruct ch; simpl in Hst, A; injection Hst as -> ->.
    + destruct A as [A | A]; [congruence|].
      split; [|exact Hc]. apply Forall_app. split; [exact Hk|].
      constructor; [exact A | constructor].
    + split; [constructor|]. apply Forall_app. split; [exact Hc|].
      constructor; [exact Hk | constructor].
    + split; [constructor | exact Hc].
    + split; constructor.
    + now split.
Qed.

(** X6: as long as no point comes from a map click, every point in the
    store, current or completed, lies within [-90, 90] x [-180, 180]: what
    manual entry stores has passed both range tests. *)
Theorem typed_points_are_in_range (es : list Event) :
  forallb (fun e => negb (is_map_click e)) es = true ->
  Forall (fun p => valid_point p = true)
    (current_trajectory (run strip float_of_str geocode es initial_app)) /\
  Forall (Forall (fun p => valid_point p = true))
    (completed_trajectories (run strip float_of_str geocode es initial_app)).
Proof.
  assert (G : forall s, all_in_range s ->
              forallb (fun e => negb (is_map_click e)) es = true ->
              all_in_range (run strip float_of_str geocode es s)).
  { induction es as [|e es' IH]; intros s I H; simpl; [exact I|].
    simpl in H. apply andb_prop in H as [He H].
    apply IH; [|exact H]. apply handle_in_range; [|exact I].
    now apply negb_true_iff. }
  intros H. apply (G initial_app); [|exact H]. split; constructor.
Qed.

Lemma handle_keeps_completed (e : Event) (s : App) :
  is_confirmed_clear_all e = false ->
  completed_trajectories s
    `prefix_of` completed_trajectories (handle strip float_of_str geocode e s).
Proof.
  intros Hclear.
  destruct (handle_outcome strip float_of_str geocode e s)
    as [Q | [T | [S | (ch & R & A)]]].
  - destruct Q as (V & _). destruct (view_fields _ _ V) as (-> & _).
    reflexivity.
  - destruct T as (-> & _). reflexivity.
  - destruct S as (V & _). destruct (view_fields _ _ V) as (-> & _).
    reflexivity.
  - destruct R as (Hst & _).
    destruct ch; simpl in Hst, A; injection Hst as -> _; try reflexivity.
    + now apply prefix_app_r.
    + congruence.
Qed.

(** X7: the completed trajectories are append-only: whatever the events,
    unless one of them is a confirmed clear-all, the completed list before
    is a prefix of the completed list after; no entry is removed, changed
    or reordered. *)
Theorem completed_only_grow (es : list Event) (s : App) :
  forallb (fun e => negb (is_confirmed_clear_all e)) es = true ->
  completed_trajectories s
    `prefix_of` completed_trajectories (run strip float_of_str geocode es s).
Proof.
  revert s. induction es as [|e es' IH]; intros s H; simpl; [reflexivity|].
  simpl in H. apply andb_prop in H as [He H].
  transitivity (completed_trajectories (handle strip float_of_str geocode e s)).
  - apply handle_keeps_completed. now apply negb_true_iff.
  - now apply IH.
Qed.

End RunProperties.

(** ** Single slots *)

(** X8: a stored point becomes the center of the map, at zoom 15, and
    finishing the trajectory right after leaves the map centered on that
    same point: the view follows the last point, current or archived. *)
Theorem view_follows_last_point (lat lng : float) (reply : StandardButton)
    (s : App) :
  is_drawing_mode s = true ->
  click_mode_enabled s = true ->
  (current_trajectory s = [] -> reply = Yes) ->
  map_location (current_map (add_trajectory_point lat lng s)) = (lat, lng) /\
  zoom_start (current_map (add_trajectory_point lat lng s)) = 15%Z /\
  map_location
    (current_map
       (finish_current_trajectory reply (add_trajectory_point lat lng s)))
  = (lat, lng) /\
  zoom_start
    (current_map
       (finish_current_trajectory reply (add_trajectory_point lat lng s)))
  = 15%Z.
Proof.
  intros Hd Hc Hreply.
  assert (Hk : current_trajectory (add_trajectory_point lat lng s)
               = current_trajectory s ++ [(lat, lng)]).
  { rewrite (add_trajectory_point_enabled lat lng s Hd Hc), refresh_map_scene.
    reflexivity. }
  assert (Hcenter : forall x : App,
            last (current_trajectory x) = Some (lat, lng) ->
            refresh_center x = ((lat, lng), 15%Z)).
  { intros x Hx. unfold refresh_center. now rewrite Hx. }
  split; [|split].
  - rewrite (add_trajectory_point_enabled lat lng s Hd Hc), refresh_map_scene.
    simpl. rewrite Hcenter; [reflexivity|]. simpl. apply last_snoc.
  - rewrite (add_trajectory_point_enabled lat lng s Hd Hc), refresh_map_scene.
    simpl. rewrite Hcenter; [reflexivity|]. simpl. apply last_snoc.
  - rewrite finish_saved.
    + rewrite refresh_map_scene. simpl. unfold refresh_center. simpl.
      rewrite last_snoc, Hk, last_snoc. split; reflexivity.
    + rewrite Hk. now destruct (current_trajectory s).
    + rewrite Hk, length_app, Nat.add_1_r. intros H.
      apply Hreply. injection H as H. now apply length_zero_iff_nil.
Qed.

(** X9: clearing a current trajectory that is not empty drops its points
    and nothing else: the completed trajectories stay, the status text
    names the number of points dropped, the new scene holds the elements
    of the completed trajectories only, centered on the last archived
    point if there is one (New York at zoom 12 otherwise), and it is
    published once. *)
Theorem clear_current_drops_only_current (s : App) :
  current_trajectory s <> [] ->
  completed_trajectories (clear_current_trajectory s)
    = completed_trajectories s /\
  current_trajectory (clear_current_trajectory s) = [] /\
  info_label (clear_current_trajectory s)
    = [Lit "🗑️ Current trajectory cleared (";
       IntD (length (current_trajectory s));
       Lit " points). Click on map to start new trajectory."] /\
  children (current_map (clear_current_trajectory s))
    = concat (imap (fun i t => trajectory_elements t i true)
                (completed_trajectories s)) /\
  (map_location (current_map (clear_current_trajectory s)),
   zoom_start (current_map (clear_current_trajectory s)))
    = match last (completed_trajectories s) with
      | Some t => match last t with
                  | Some p => (p, 15%Z)
                  | None => (nyc, 12%Z)
                  end
      | None => (nyc, 12%Z)
      end /\
  effects (clear_current_trajectory s)
    = effects s ++ [DisplayMap (current_map (clear_current_trajectory s))].
Proof.
  intros Hne. rewrite (clear_current_nonempty s Hne), refresh_map_scene.
  simpl. repeat split_and; try reflexivity.
  - rewrite scene_elements_by_index. apply app_nil_r.
  - unfold refresh_center. simpl.
    destruct (last (completed_trajectories s)) as [t|]; [|reflexivity].
    now destruct (last t).
Qed.

(** X10: the click bridge tests the click-mode flag, and so does the method
    it calls: the bridge's own test changes nothing, a map click does
    exactly what a direct call of [add_trajectory_point] does. *)
Theorem bridge_gate_is_redundant (lat lng : float) (s : App) :
  on_map_click lat lng s = add_trajectory_point lat lng s.
Proof.
  unfold on_map_click. destruct (click_mode_enabled s) eqn:Hc;
    [reflexivity|].
  symmetry. apply add_trajectory_point_disabled. now right.
Qed.

(** X11: after any sequence of calls, what Python's list objects hold is the
    store of the value-level model: every completed trajectory, read
    through the heap, has its points as archived, in order, and so has the
    current one; no call has altered an entry through a shared list. *)
Theorem lists_hold_the_store (cs : list Call) :
  PyHeap.read_completed (store_after cs)
    = Some (completed_trajectories (state_after cs)) /\
  PyHeap.read_current (store_after cs)
    = Some (current_trajectory (state_after cs)) /\
  PyHeap.click_mode (store_after cs) = click_mode_enabled (state_after cs) /\
  PyHeap.current_ref (store_after cs) <> PyHeap.completed_ref (store_after cs).
Proof.
  destruct (store_after_agrees cs) as (R & _ & Hc).
  destruct (represents_read _ _ _ R) as [Rc Rk].
  destruct R as (Hne & _).
  repeat split_and; assumption.
Qed.

Section SlotProperties.

Variable strip : string -> string.
Variable float_of_str : string -> string + float.
Variable geocode : string -> GeocodeResult.

(** X12: manual entry fully rejects or fully applies.  Either it shows
    exactly one warning and changes nothing, the typed text included; or
    both fields were read as numbers that pass the two range tests, and
    then these numbers go to [add_trajectory_point], the two fields are
    cleared and the latitude field gets the focus. *)
Theorem manual_entry_applies_or_rejects (s : App) :
  (exists title text,
     only_reports (MsgWarning title text) s
       (add_manual_point strip float_of_str s)) \/
  (exists lat lng,
     float_of_str (strip (lat_input s)) = inr lat /\
     float_of_str (strip (lon_input s)) = inr lng /\
     between (-90)%float lat 90%float = true /\
     between (-180)%float lng 180%float = true /\
     add_manual_point strip float_of_str s
     = perform SetFocusLat (set_inputs "" "" (add_trajectory_point lat lng s))).
Proof.
  destruct (manual_entry_cases strip float_of_str s)
    as [(title & text & E) | (lat & lng & Hlat & Hlng & Hv & E)].
  - left. exists title, text. rewrite E. apply only_reports_perform.
  - right. exists lat, lng. unfold valid_point in Hv. simpl in Hv.
    apply andb_prop in Hv as [H1 H2]. repeat split_and; assumption.
Qed.

(** X13: a search never touches the store: trajectories, flags, the counter
    label, the coordinate fields and the tile style are as before, whatever
    the geocoder answers.  When the name is empty the only effect is one
    warning; when the place is not found or the lookup fails, the map stays
    and nothing is published: only the status text changes. *)
Theorem search_leaves_store_alone (place : string) (s : App) :
  view (search_place strip geocode place s) = view s /\
  trajectory_count_label (search_place strip geocode place s)
    = trajectory_count_label s /\
  lat_input (search_place strip geocode place s) = lat_input s /\
  lon_input (search_place strip geocode place s) = lon_input s /\
  map_style_combo (search_place strip geocode place s) = map_style_combo s /\
  (strip place = "" ->
   only_reports
     (MsgWarning "Empty Search" [Lit "Please enter a place name to search."])
     s (search_place strip geocode place s)) /\
  (strip place <> "" -> geocode (strip place) = NotFound ->
   search_place strip geocode place s
   = set_info_label
       [Lit "❌ Could not find '"; Lit (strip place);
        Lit "'. Try a different search."] s) /\
  (forall msg, strip place <> "" ->
   geocode (strip place) = GeocodeFailed msg ->
   search_place strip geocode place s
   = set_info_label [Lit "❌ Search error: "; Lit msg] s).
Proof.
  destruct (String.eqb (strip place) "") eqn:Hne.
  - apply String.eqb_eq in Hne as Hempty.
    unfold search_place. rewrite Hne.
    repeat split_and; try reflexivity; try congruence;
      intros; apply only_reports_perform.
  - apply String.eqb_neq in Hne as Hfull.
    destruct (geocode (strip place)) as [la lo ad | | msg] eqn:Hg.
    + rewrite (search_place_found strip geocode place s la lo ad Hne Hg).
      repeat split_and; try reflexivity; congruence.
    + unfold search_place. rewrite Hne, Hg.
      repeat split_and; try reflexivity; congruence.
    + unfold search_place. rewrite Hne, Hg.
      repeat split_and; try reflexivity; try congruence.
      intros m _ Hm. injection Hm as <-. reflexivity.
Qed.

(** X14: a search that finds its place publishes one map centered on the
    place at zoom 15, in the selected tile style, with the search marker
    first and then every trajectory as in the normal scene, and with the
    click script; the status text names the address.  The marker belongs
    to no trajectory: the next refresh shows the scene without it. *)
Theorem found_place_is_shown (place : string) (s : App)
    (latitude longitude : float) (address : string) :
  strip place <> "" ->
  geocode (strip place) = Found latitude longitude address ->
  current_map (search_place strip geocode place s)
    = mkMap (latitude, longitude) 15
        (tiles (current_map (refresh_map s)))
        (attr (current_map (refresh_map s)))
        (search_marker (strip place) latitude longitude address
         :: children (current_map (refresh_map s)))
        [click_script] /\
  effects (search_place strip geocode place s)
    = effects s
      ++ [DisplayMap (current_map (search_place strip geocode place s))] /\
  info_label (search_place strip geocode place s)
    = [Lit "📍 Found: "; Lit address] /\
  current_map (refresh_map (search_place strip geocode place s))
    = current_map (refresh_map s).
Proof.
  intros Hfull Hg. apply String.eqb_neq in Hfull.
  rewrite (search_place_found strip geocode place s _ _ _ Hfull Hg).
  rewrite !refresh_map_scene. simpl.
  repeat split_and; try reflexivity.
Qed.

End SlotProperties.

(** ** Reading the points back from the scene *)

Lemma omap_concat {A B : Type} (g : A -> option B) (ls : list (list A)) :
  omap g (concat ls) = concat (map (omap g) ls).
Proof.
  induction ls as [|l ls IH]; simpl; [reflexivity|].
  now rewrite omap_app, IH.
Qed.

Lemma markers_of_points (completed : bool) (color : string) (index n k : nat)
    (t : Trajectory) :
  omap marker_location
    (map (fun ip => point_marker completed color index n (fst ip) (snd ip))
       (enumerate_from k t)) = t /\
  omap line_locations
    (map (fun ip => point_marker completed color index n (fst ip) (snd ip))
       (enumerate_from k t)) = [].
Proof.
  revert k. induction t as [|p t IH]; intros k; [now split|].
  destruct (IH (S k)) as [IH1 IH2].
  assert (H : marker_location (point_marker completed color index n k p) = Some p
              /\ line_locations (point_marker completed color index n k p) = None).
  { unfold point_marker. destruct completed; [|now split].
    destruct (Nat.eqb k 0); [now split|].
    destruct (Nat.eqb k (n - 1)); now split. }
  destruct H as [H1 H2].
  cbn -[point_marker]. rewrite H1, H2, IH1, IH2. now split.
Qed.

Lemma trajectory_elements_read_back (t : Trajectory) (index : nat)
    (completed : bool) :
  omap marker_location (trajectory_elements t index completed) = t /\
  omap line_locations (trajectory_elements t index completed)
  = if Nat.leb 2 (length t) then [t] else [].
Proof.
  unfold trajectory_elements.
  destruct t as [|p t]; [now split|].
  change (Nat.eqb (length (p :: t)) 0) with false. cbv iota.
  change (Nat.ltb 1 (length (p :: t))) with (Nat.leb 2 (length (p :: t))).
  rewrite !omap_app.
  destruct (markers_of_points completed (trajectory_color index) index
              (length (p :: t)) 0 (p :: t)) as [M L].
  unfold enumerate. rewrite M, L.
  destruct (Nat.leb 2 (length (p :: t))).
  - unfold trajectory_line. destruct completed; simpl; now rewrite app_nil_r.
  - simpl. now rewrite app_nil_r.
Qed.

Lemma completed_elements_read_back (k : nat) (completed : list Trajectory) :
  omap marker_location
    (concat (map (fun it => trajectory_elements (snd it) (fst it) true)
               (enumerate_from k completed)))
  = concat completed /\
  omap line_locations
    (concat (map (fun it => trajectory_elements (snd it) (fst it) true)
               (enumerate_from k completed)))
  = List.filter (fun t => Nat.leb 2 (length t)) completed.
Proof.
  revert k. induction completed as [|t cs IH]; intros k; simpl; [now split|].
  destruct (IH (S k)) as [IH1 IH2].
  destruct (trajectory_elements_read_back t k true) as [M L].
  rewrite !omap_app, M, L, IH1, IH2.
  split; [reflexivity|]. now destruct (length t) as [|[|n]].
Qed.

(** X15: the scene shows every stored point exactly once and in order: the
    locations of its point markers, read in scene order, are the points of
    the completed trajectories followed by those of the current one; and
    its lines are exactly the trajectories of two points or more, each
    running through all its points. *)
Theorem scene_shows_every_point_once (s : App) :
  omap marker_location (children (current_map (refresh_map s)))
  = concat (completed_trajectories s) ++ current_trajectory s /\
  omap line_locations (children (current_map (refresh_map s)))
  = List.filter (fun t => Nat.leb 2 (length t))
      (completed_trajectories s ++ [current_trajectory s]).
Proof.
  rewrite refresh_map_scene. simpl. unfold scene_elements, enumerate.
  destruct (completed_elements_read_back 0 (completed_trajectories s))
    as [M L].
  destruct (trajectory_elements_read_back (current_trajectory s)
              (length (completed_trajectories s)) false) as [Mk Lk].
  rewrite !omap_app, M, L, Mk, Lk, List.filter_app. simpl.
  split; [reflexivity|].
  now destruct (Nat.leb 2 (length (current_trajectory s))).
Qed.

(** ** Instances of the further properties *)

(** Two manual entries, the second one out of range, and a finish. *)
Lemma typed_points_are_in_range_witness :
  forallb (fun e => negb (is_map_click e)) typed_run = true /\
  Forall (Forall (fun p => valid_point p = true))
    (completed_trajectories
       (run ascii_strip example_float example_geocode typed_run initial_app)).
Proof.
  split; [reflexivity|].
  exact (proj2 (typed_points_are_in_range ascii_strip example_float
                  example_geocode typed_run eq_refl)).
Defined.

(** A declined clear-all and a clear-current keep what was archived. *)
Lemma completed_only_grow_witness :
  forallb (fun e => negb (is_confirmed_clear_all e)) clicked_run = true /\
  completed_trajectories initial_app
    `prefix_of` completed_trajectories
                  (run ascii_strip example_float example_geocode clicked_run
                     initial_app).
Proof.
  split; [reflexivity|].
  exact (completed_only_grow ascii_strip example_float example_geocode
           clicked_run initial_app eq_refl).
Defined.

(** A first click at start-up, finished with the answer Yes. *)
Lemma view_follows_last_point_witness :
  is_drawing_mode initial_app = true /\
  click_mode_enabled initial_app = true /\
  map_location
    (current_map (add_trajectory_point 40.0%float (-74.0)%float initial_app))
  = (40.0%float, (-74.0)%float).
Proof.
  do 2 (split; [reflexivity|]).
  exact (proj1 (view_follows_last_point 40.0%float (-74.0)%float Yes
                  initial_app eq_refl eq_refl (fun _ => eq_refl))).
Defined.

(** The session with one current point. *)
Lemma clear_current_drops_only_current_witness :
  current_trajectory one_point_app <> [] /\
  current_trajectory (clear_current_trajectory one_point_app) = [].
Proof.
  assert (H : current_trajectory one_point_app <> []) by discriminate.
  split; [exact H|].
  exact (proj1 (proj2 (clear_current_drops_only_current one_point_app H))).
Defined.

(** Searching for the one place the example geocoder knows. *)
Lemma found_place_is_shown_witness :
  ascii_strip " Times Square " <> "" /\
  example_geocode (ascii_strip " Times Square ")
    = Found 40.758%float (-73.9855)%float "Times Square, Manhattan, New York" /\
  info_label
    (search_place ascii_strip example_geocode " Times Square " one_point_app)
  = [Lit "📍 Found: "; Lit "Times Square, Manhattan, New York"].
Proof.
  assert (H : ascii_strip " Times Square " <> "") by discriminate.
  split; [exact H|]. split; [reflexivity|].
  exact (proj1 (proj2 (proj2
           (found_place_is_shown ascii_strip example_geocode " Times Square "
              one_point_app _ _ _ H eq_refl)))).
Defined.

(** The typed run stores (10, 10) and refuses (91, 0); the clicked run
    ends with one archived point and no current one. *)
Example further_scenarios :
  completed_trajectories
    (run ascii_strip example_float example_geocode typed_run initial_app)
  = [[(10%float, 10%float)]] /\
  completed_trajectories
    (run ascii_strip example_float example_geocode clicked_run initial_app)
  = [[(40.0%float, (-74.0)%float)]] /\
  current_trajectory
    (run ascii_strip example_float example_geocode clicked_run initial_app)
  = [].
Proof. repeat split_and; reflexivity. Qed.
